(** * Vtuber: face tracking, audio scheduling and expression composition

    A shallow embedding of the three stateful parts of the application:

    - [faceTracker]   : services/faceTracker.ts, class [FaceTracker]
                        (calibration, throttled inference, smoothing);
    - [liveClient]    : services/liveClient.ts, class [LiveClient]
                        (inbound message handling, playback cursor, teardown);
    - [AvatarDisplay] : components/AvatarDisplay.tsx, the expression part of
                        the per-frame [animate] callback.

    JavaScript numbers are read as exact rationals ([Qc]): the arithmetic of
    the source (+, -, *, /, comparisons, Math.max, Math.min) is kept, rounding
    of IEEE doubles and NaN are not modelled.  Objects used as dictionaries
    ([Record<string, number>]) are [gmap string Qc].  Methods become functions
    from the object's fields to the new fields, together with the list of
    calls they make on the outside world (callbacks, Web Audio, timers). *)

From Stdlib Require Import QArith Qcanon Lqa.
From Stdlib Require Strings.Byte.
From stdpp Require Import base decidable option list numbers strings gmap fin_maps.

Local Open Scope Qc_scope.

(** ** JavaScript arithmetic on exact rationals *)

Module JS.

(** [v || 0] for a dictionary read: [undefined] and [0] both give [0]. *)
Definition or0 (v : option Qc) : Qc := default 0 v.

(** [Math.max(a, b)] and [Math.min(a, b)]. *)
Definition Math_max (a b : Qc) : Qc := if decide (a < b) then b else a.
Definition Math_min (a b : Qc) : Qc := if decide (b < a) then b else a.

(** Truthiness of a string: only the empty string is falsy. *)
Definition truthy (s : string) : bool :=
  match s with
  | EmptyString => false
  | String _ _ => true
  end.

End JS.

(** ** services/faceTracker.ts *)

Module faceTracker.
Import JS.

Definition TRACKING_FPS : Qc := Q2Qc 24.
Definition FRAME_INTERVAL : Qc := Q2Qc 1000 / TRACKING_FPS.
Definition SMOOTHING_FACTOR : Qc := Q2Qc 0.7.

(** [{ x: number, y: number, z: number }] *)
Record Vec3 : Type := mkVec3 { x : Qc; y : Qc; z : Qc }.

Definition zero3 : Vec3 := mkVec3 0 0 0.

(** The video element the tracker holds a reference to.  Only [srcObject] is
    written by the tracker; [true] stands for an attached camera stream. *)
Record HTMLVideoElement : Type := mkVideo { srcObject : bool }.

(** What the tracker reads from the video element during one [predict]. *)
Record VideoReadings : Type := mkReadings {
  currentTime : Qc;
  paused : bool;
  ended : bool
}.

(** A blendshape category of MediaPipe: [{ categoryName, score }]. *)
Record Category : Type := mkCategory { categoryName : string; score : Qc }.

(** One facial transformation matrix: [data] is the column-major 4x4 array. *)
Record Matrix : Type := mkMatrix { data : list Qc }.

(** The outcome of [faceLandmarker.detectForVideo(video, now)]: it throws, or
    returns [faceBlendshapes] (one category list per face) and
    [facialTransformationMatrixes]; an absent array is the empty list. *)
Inductive Detection : Type :=
| Throws
| Results (faceBlendshapes : list (list Category))
          (facialTransformationMatrixes : list Matrix).

(** Calls made on the outside world by the tracker. *)
Inductive Effect : Type :=
| DetectForVideo (now : Qc)
| Warn
| UpdateSmoothing
| RequestAnimationFrame
| StopTracks
| ConsoleLog.

Record FaceTracker : Type := mkFaceTracker {
  faceLandmarker : bool;                 (* loaded, or null *)
  video : option HTMLVideoElement;
  lastVideoTime : Qc;
  lastTrackingTime : Qc;
  isRunning : bool;
  targetBlendshapes : gmap string Qc;
  currentBlendshapes : gmap string Qc;
  _neutralBlendshapes : gmap string Qc;
  _neutralRotation : Vec3;
  _neutralPosition : Vec3;
  _isCalibrated : bool;
  _targetRotation : Vec3;
  _targetPosition : Vec3;
  rotation : Vec3;
  position : Vec3
}.

#[global] Instance Vec3_eq_dec : EqDecision Vec3.
Proof. solve_decision. Defined.
#[global] Instance HTMLVideoElement_eq_dec : EqDecision HTMLVideoElement.
Proof. solve_decision. Defined.
#[global] Instance TrackerEffect_eq_dec : EqDecision Effect.
Proof. solve_decision. Defined.
#[global] Instance FaceTracker_eq_dec : EqDecision FaceTracker.
Proof. solve_decision. Defined.

(** Field initialisers of the class, then the constructor. *)
Definition new : FaceTracker := {|
  faceLandmarker := false;
  video := None;
  lastVideoTime := - 1;
  lastTrackingTime := 0;
  isRunning := false;
  targetBlendshapes := ∅;
  currentBlendshapes := ∅;
  _neutralBlendshapes := ∅;
  _neutralRotation := zero3;
  _neutralPosition := zero3;
  _isCalibrated := false;
  _targetRotation := zero3;
  _targetPosition := zero3;
  rotation := zero3;
  position := zero3
|}.

(** [initialize()], when the model loads: the landmarker is kept once set. *)
Definition initialize (t : FaceTracker) : FaceTracker :=
  if faceLandmarker t then t else
  {| faceLandmarker := true;
     video := video t;
     lastVideoTime := lastVideoTime t;
     lastTrackingTime := lastTrackingTime t;
     isRunning := isRunning t;
     targetBlendshapes := targetBlendshapes t;
     currentBlendshapes := currentBlendshapes t;
     _neutralBlendshapes := _neutralBlendshapes t;
     _neutralRotation := _neutralRotation t;
     _neutralPosition := _neutralPosition t;
     _isCalibrated := _isCalibrated t;
     _targetRotation := _targetRotation t;
     _targetPosition := _targetPosition t;
     rotation := rotation t;
     position := position t |}.

(** [start(videoElement)] up to the registration of the [loadeddata]
    listener, when the camera is granted: the element is stored with the
    stream attached. *)
Definition start (t : FaceTracker) : FaceTracker :=
  let t := initialize t in
  {| faceLandmarker := faceLandmarker t;
     video := Some (mkVideo true);
     lastVideoTime := lastVideoTime t;
     lastTrackingTime := lastTrackingTime t;
     isRunning := isRunning t;
     targetBlendshapes := targetBlendshapes t;
     currentBlendshapes := currentBlendshapes t;
     _neutralBlendshapes := _neutralBlendshapes t;
     _neutralRotation := _neutralRotation t;
     _neutralPosition := _neutralPosition t;
     _isCalibrated := _isCalibrated t;
     _targetRotation := _targetRotation t;
     _targetPosition := _targetPosition t;
     rotation := rotation t;
     position := position t |}.

(** [stop()] *)
Definition stop (t : FaceTracker) : FaceTracker * list Effect :=
  let released :=
    match video t with
    | Some v => srcObject v
    | None => false
    end in
  ({| faceLandmarker := faceLandmarker t;
      video := if released then Some (mkVideo false) else video t;
      lastVideoTime := lastVideoTime t;
      lastTrackingTime := lastTrackingTime t;
      isRunning := false;
      targetBlendshapes := targetBlendshapes t;
      currentBlendshapes := currentBlendshapes t;
      _neutralBlendshapes := ∅;
      _neutralRotation := _neutralRotation t;
      _neutralPosition := _neutralPosition t;
      _isCalibrated := false;
      _targetRotation := _targetRotation t;
      _targetPosition := _targetPosition t;
      rotation := rotation t;
      position := position t |},
   if released then [StopTracks] else []).

(** [calibrate()] *)
Definition calibrate (t : FaceTracker) : FaceTracker * list Effect :=
  if negb (isRunning t) then (t, []) else
  ({| faceLandmarker := faceLandmarker t;
      video := video t;
      lastVideoTime := lastVideoTime t;
      lastTrackingTime := lastTrackingTime t;
      isRunning := isRunning t;
      targetBlendshapes := targetBlendshapes t;
      currentBlendshapes := currentBlendshapes t;
      _neutralBlendshapes := currentBlendshapes t;
      _neutralRotation := rotation t;
      _neutralPosition := position t;
      _isCalibrated := true;
      _targetRotation := _targetRotation t;
      _targetPosition := _targetPosition t;
      rotation := rotation t;
      position := position t |},
   [ConsoleLog]).

(** [getCalibratedRotation()] *)
Definition getCalibratedRotation (t : FaceTracker) : Vec3 :=
  if negb (_isCalibrated t) then rotation t else
  {| x := x (rotation t) - x (_neutralRotation t);
     y := y (rotation t) - y (_neutralRotation t);
     z := z (rotation t) - z (_neutralRotation t) |}.

(** [getCalibratedPosition()] *)
Definition getCalibratedPosition (t : FaceTracker) : Vec3 :=
  if negb (_isCalibrated t) then zero3 else
  {| x := x (position t) - x (_neutralPosition t);
     y := y (position t) - y (_neutralPosition t);
     z := z (position t) - z (_neutralPosition t) |}.

(** The body of the loop of [getCalibratedBlendshapes] for one key whose
    value in [currentBlendshapes] is [v]. *)
Definition calibratedValue (neutrals : gmap string Qc) (key : string) (v : Qc) : Qc :=
  let current := or0 (Some v) in
  let neutral := or0 (neutrals !! key) in
  let val := current - neutral in
  let val := if decide (val < 0) then 0 else val in
  val * Q2Qc 1.5.

(** [getCalibratedBlendshapes()]: the uncalibrated tracker hands out
    [currentBlendshapes] itself; otherwise a fresh dictionary is filled, one
    key of [currentBlendshapes] after the other. *)
Definition getCalibratedBlendshapes (t : FaceTracker) : gmap string Qc :=
  if negb (_isCalibrated t) then currentBlendshapes t else
  map_fold (λ key v calibrated,
              <[key := calibratedValue (_neutralBlendshapes t) key v]> calibrated)
           ∅ (currentBlendshapes t).

(** [lerp(start, end, amt)] *)
Definition lerp (start end_ amt : Qc) : Qc := (1 - amt) * start + amt * end_.

Definition lerp3 (cur tgt : Vec3) : Vec3 :=
  {| x := lerp (x cur) (x tgt) SMOOTHING_FACTOR;
     y := lerp (y cur) (y tgt) SMOOTHING_FACTOR;
     z := lerp (z cur) (z tgt) SMOOTHING_FACTOR |}.

(** The body of the blendshape loop of [updateSmoothing] for one key of
    [targetBlendshapes] with value [v], on the dictionary being updated. *)
Definition smoothKey (key : string) (v : Qc) (currents : gmap string Qc) : gmap string Qc :=
  let target := or0 (Some v) in
  let current := or0 (currents !! key) in
  let cleanTarget := if decide (target < Q2Qc 0.05) then 0 else target in
  <[key := lerp current cleanTarget SMOOTHING_FACTOR]> currents.

(** [updateSmoothing()] *)
Definition updateSmoothing (t : FaceTracker) : FaceTracker :=
  {| faceLandmarker := faceLandmarker t;
     video := video t;
     lastVideoTime := lastVideoTime t;
     lastTrackingTime := lastTrackingTime t;
     isRunning := isRunning t;
     targetBlendshapes := targetBlendshapes t;
     currentBlendshapes :=
       map_fold smoothKey (currentBlendshapes t) (targetBlendshapes t);
     _neutralBlendshapes := _neutralBlendshapes t;
     _neutralRotation := _neutralRotation t;
     _neutralPosition := _neutralPosition t;
     _isCalibrated := _isCalibrated t;
     _targetRotation := _targetRotation t;
     _targetPosition := _targetPosition t;
     rotation := lerp3 (rotation t) (_targetRotation t);
     position := lerp3 (position t) (_targetPosition t) |}.

(** The loop over [shapes] in [predict]:
    [targetBlendshapes[shapes[i].categoryName] = shapes[i].score]. *)
Definition storeShapes (shapes : list Category) (targets : gmap string Qc) : gmap string Qc :=
  foldl (λ acc c, <[categoryName c := score c]> acc) targets shapes.

Section Predict.

(** [THREE.Euler.setFromRotationMatrix] applied to [Matrix4.fromArray(data)],
    a function of the three.js library. *)
Variable setFromRotationMatrix : list Qc → Vec3.

(** Entry [i] of the matrix array; MediaPipe matrices have 16 entries. *)
Definition entry (matrixData : list Qc) (i : nat) : Qc := or0 (matrixData !! i).

(** The guarded block of [predict]: the frame is recorded as seen, inference
    runs, and its results, if any, replace the targets. *)
Definition track (now : Qc) (r : VideoReadings) (det : Detection) (t : FaceTracker)
  : FaceTracker * list Effect :=
  let seen tb tr tp :=
    {| faceLandmarker := faceLandmarker t;
       video := video t;
       lastVideoTime := currentTime r;
       lastTrackingTime := now;
       isRunning := isRunning t;
       targetBlendshapes := tb;
       currentBlendshapes := currentBlendshapes t;
       _neutralBlendshapes := _neutralBlendshapes t;
       _neutralRotation := _neutralRotation t;
       _neutralPosition := _neutralPosition t;
       _isCalibrated := _isCalibrated t;
       _targetRotation := tr;
       _targetPosition := tp;
       rotation := rotation t;
       position := position t |} in
  match det with
  | Throws =>
      (seen (targetBlendshapes t) (_targetRotation t) (_targetPosition t),
       [DetectForVideo now; Warn])
  | Results [] _ =>
      (seen (targetBlendshapes t) (_targetRotation t) (_targetPosition t),
       [DetectForVideo now])
  | Results (shapes :: _) [] =>
      (seen (storeShapes shapes (targetBlendshapes t))
            (_targetRotation t) (_targetPosition t),
       [DetectForVideo now])
  | Results (shapes :: _) (m :: _) =>
      let matrixData := data m in
      let euler := setFromRotationMatrix matrixData in
      (seen (storeShapes shapes (targetBlendshapes t))
            {| x := x euler; y := - y euler; z := - z euler |}
            {| x := - entry matrixData 12;
               y := - entry matrixData 13;
               z := - entry matrixData 14 |},
       [DetectForVideo now])
  end.

(** The throttle of [predict]: enough time since the last tracked frame. *)
Definition intervalElapsed (now : Qc) (t : FaceTracker) : bool :=
  bool_decide (FRAME_INTERVAL ≤ now - lastTrackingTime t).

(** The inner condition of [predict]: the video shows a new frame. *)
Definition frameAdvanced (r : VideoReadings) (t : FaceTracker) : bool :=
  bool_decide (currentTime r ≠ lastVideoTime t) && negb (paused r) && negb (ended r).

(** [predict()], with [now = performance.now()]. *)
Definition predict (now : Qc) (r : VideoReadings) (det : Detection) (t : FaceTracker)
  : FaceTracker * list Effect :=
  if negb (isRunning t) || negb (faceLandmarker t) || negb (bool_decide (is_Some (video t)))
  then (t, [])
  else
    let '(t1, e1) :=
      if intervalElapsed now t then
        if frameAdvanced r t then track now r det t else (t, [])
      else (t, []) in
    let t2 := updateSmoothing t1 in
    (t2, e1 ++ [UpdateSmoothing]
            ++ (if isRunning t2 then [RequestAnimationFrame] else [])).

(** The [loadeddata] listener registered by [start]. *)
Definition loadeddata (now : Qc) (r : VideoReadings) (det : Detection) (t : FaceTracker)
  : FaceTracker * list Effect :=
  predict now r det
    {| faceLandmarker := faceLandmarker t;
       video := video t;
       lastVideoTime := lastVideoTime t;
       lastTrackingTime := lastTrackingTime t;
       isRunning := true;
       targetBlendshapes := targetBlendshapes t;
       currentBlendshapes := currentBlendshapes t;
       _neutralBlendshapes := _neutralBlendshapes t;
       _neutralRotation := _neutralRotation t;
       _neutralPosition := _neutralPosition t;
       _isCalibrated := _isCalibrated t;
       _targetRotation := _targetRotation t;
       _targetPosition := _targetPosition t;
       rotation := rotation t;
       position := position t |}.

(** The tick advances: both conditions that guard the inference hold. *)
Definition advancing (now : Qc) (r : VideoReadings) (t : FaceTracker) : bool :=
  intervalElapsed now t && frameAdvanced r t.

(** One call into the tracker: a public method, or one of its callbacks. *)
Inductive step : FaceTracker → FaceTracker → Prop :=
| step_initialize t : step t (initialize t)
| step_start t : step t (start t)
| step_loadeddata now r det t :
    is_Some (video t) → step t (fst (loadeddata now r det t))
| step_predict now r det t : step t (fst (predict now r det t))
| step_calibrate t : step t (fst (calibrate t))
| step_stop t : step t (fst (stop t)).

(** The tracker states a program can observe. *)
Definition reachable (t : FaceTracker) : Prop := rtc step new t.

End Predict.

(** A tracker that is not running is not calibrated. *)
Definition calibrated_only_running (t : FaceTracker) : Prop :=
  isRunning t = false → _isCalibrated t = false.

(** How often a call occurs in a list of calls. *)
Definition occurrences (e : Effect) (calls : list Effect) : nat :=
  length (filter (λ e', e' = e) calls).

(** [n] consecutive smoothing updates. *)
Definition smoothN (n : nat) (t : FaceTracker) : FaceTracker := Nat.iter n updateSmoothing t.

(** One scalar channel under [n] smoothing updates toward a fixed target. *)
Definition channel (target : Qc) (n : nat) (start : Qc) : Qc :=
  Nat.iter n (λ state, lerp state target SMOOTHING_FACTOR) start.

(** Every value of a blendshape dictionary lies between 0 and 1. *)
Definition unitRange (m : gmap string Qc) : Prop :=
  map_Forall (λ _ v, 0 ≤ v ∧ v ≤ 1) m.

(** Every score a detection reports lies between 0 and 1. *)
Definition scoresInRange (det : Detection) : Prop :=
  match det with
  | Throws => True
  | Results faces _ => Forall (Forall (λ c, 0 ≤ score c ∧ score c ≤ 1)) faces
  end.

(** The dictionary and the two vectors the smoothing moves toward. *)
Definition targets (t : FaceTracker) : gmap string Qc * Vec3 * Vec3 :=
  (targetBlendshapes t, _targetRotation t, _targetPosition t).

End faceTracker.

(** ** services/liveClient.ts *)

Module liveClient.
Import JS.

(** The decoded audio: an [AudioBuffer] of the Web Audio API, whose
    [duration] is its length in sample-frames over its sample rate. *)
Record AudioBuffer : Type := mkAudioBuffer { sampleFrames : N; sampleRate : positive }.

Definition duration (b : AudioBuffer) : Qc := Q2Qc (Z.of_N (sampleFrames b) # sampleRate b).

(** The two parts of a [LiveServerMessage] the handler reads:
    [serverContent?.modelTurn?.parts?.[0]?.inlineData?.data] and
    [serverContent?.interrupted]. *)
Record LiveServerMessage : Type := mkMessage {
  inlineData : option string;
  interrupted : bool
}.

(** Calls made on the outside world by the client; browser objects are named
    by a handle. *)
Inductive Effect : Type :=
| OnAiSpeakingStart
| OnAiSpeakingStop
| OnError
| SourceStart (when : Qc) (buffer : AudioBuffer)
| ClearInterval (h : positive)
| SetInterval (h : positive)
| ProcessorDisconnect (h : positive)
| SourceDisconnect (h : positive)
| StopTracks (h : positive)
| CloseContext (h : positive).

Record LiveClient : Type := mkLiveClient {
  inputAudioContext : option positive;
  outputAudioContext : option positive;
  mediaStream : option positive;
  processor : option positive;
  source : option positive;
  nextStartTime : Qc;
  sessionPromise : option positive;
  currentSession : option positive;
  analyser : option positive;
  volumeInterval : option positive
}.

#[global] Instance AudioBuffer_eq_dec : EqDecision AudioBuffer.
Proof. solve_decision. Defined.
#[global] Instance ClientEffect_eq_dec : EqDecision Effect.
Proof. solve_decision. Defined.
#[global] Instance LiveClient_eq_dec : EqDecision LiveClient.
Proof. solve_decision. Defined.

(** Field initialisers of the class. *)
Definition new : LiveClient := {|
  inputAudioContext := None;
  outputAudioContext := None;
  mediaStream := None;
  processor := None;
  source := None;
  nextStartTime := 0;
  sessionPromise := None;
  currentSession := None;
  analyser := None;
  volumeInterval := None
|}.

Definition setNextStartTime (v : Qc) (c : LiveClient) : LiveClient :=
  {| inputAudioContext := inputAudioContext c;
     outputAudioContext := outputAudioContext c;
     mediaStream := mediaStream c;
     processor := processor c;
     source := source c;
     nextStartTime := v;
     sessionPromise := sessionPromise c;
     currentSession := currentSession c;
     analyser := analyser c;
     volumeInterval := volumeInterval c |}.

(** The browser objects handed out during one [connect]. *)
Record Fresh : Type := mkFresh {
  freshInput : positive;
  freshOutput : positive;
  freshAnalyser : positive;
  freshInterval : positive;
  freshStream : positive;
  freshSession : positive
}.

(** How far [connect] gets before it throws, if it does. *)
Inductive ConnectOutcome : Type :=
| Connected
| MicrophoneDenied
| SessionRejected.

(** [if (x) release(x)] for a nullable reference. *)
Definition release (f : positive → Effect) (r : option positive) : list Effect :=
  match r with
  | Some h => [f h]
  | None => []
  end.

(** [connect(systemInstruction)] *)
Definition connect (f : Fresh) (o : ConnectOutcome) (c : LiveClient)
  : LiveClient * list Effect :=
  let monitoring := release ClearInterval (volumeInterval c) ++ [SetInterval (freshInterval f)] in
  let opened stream promise session :=
    {| inputAudioContext := Some (freshInput f);
       outputAudioContext := Some (freshOutput f);
       mediaStream := stream;
       processor := processor c;
       source := source c;
       nextStartTime := nextStartTime c;
       sessionPromise := promise;
       currentSession := session;
       analyser := Some (freshAnalyser f);
       volumeInterval := Some (freshInterval f) |} in
  match o with
  | MicrophoneDenied =>
      (opened (mediaStream c) (sessionPromise c) (currentSession c),
       monitoring ++ [OnError])
  | SessionRejected =>
      (opened (Some (freshStream f)) (Some (freshSession f)) (currentSession c),
       monitoring ++ [OnError])
  | Connected =>
      (opened (Some (freshStream f)) (Some (freshSession f)) (Some (freshSession f)),
       monitoring)
  end.

(** [startAudioInput()], called by [handleOpen]. *)
Definition startAudioInput (freshSource freshProcessor : positive) (c : LiveClient)
  : LiveClient :=
  match inputAudioContext c, mediaStream c with
  | Some _, Some _ =>
      {| inputAudioContext := inputAudioContext c;
         outputAudioContext := outputAudioContext c;
         mediaStream := mediaStream c;
         processor := Some freshProcessor;
         source := Some freshSource;
         nextStartTime := nextStartTime c;
         sessionPromise := sessionPromise c;
         currentSession := currentSession c;
         analyser := analyser c;
         volumeInterval := volumeInterval c |}
  | _, _ => c
  end.

(** The condition of the first [if] of [handleMessage]:
    [base64Audio && this.outputAudioContext && this.analyser].  It gives the
    payload to decode when the branch is taken. *)
Definition audioToPlay (message : LiveServerMessage) (c : LiveClient) : option string :=
  match inlineData message, outputAudioContext c, analyser c with
  | Some base64Audio, Some _, Some _ =>
      if truthy base64Audio then Some base64Audio else None
  | _, _, _ => None
  end.

(** The audio branch up to [await decodeAudioData(...)], with
    [now = outputAudioContext.currentTime]. *)
Definition beforeDecode (now : Qc) (c : LiveClient) : LiveClient * list Effect :=
  (setNextStartTime (Math_max (nextStartTime c) now) c, [OnAiSpeakingStart]).

(** The audio branch after the decoded buffer has arrived. *)
Definition afterDecode (audioBuffer : AudioBuffer) (c : LiveClient)
  : LiveClient * list Effect :=
  (setNextStartTime (nextStartTime c + duration audioBuffer) c,
   [SourceStart (nextStartTime c) audioBuffer]).

(** The second [if] of [handleMessage]. *)
Definition onInterrupted (message : LiveServerMessage) (c : LiveClient)
  : LiveClient * list Effect :=
  if interrupted message
  then (setNextStartTime 0 c, [OnAiSpeakingStop])
  else (c, []).

Section HandleMessage.

(** [decodeAudioData(base64Audio, outputAudioContext, 24000)] of
    utils/audioUtils: the decoded buffer, or [None] when it throws. *)
Variable decodeAudioData : string → option AudioBuffer.

(** [handleMessage(message)], run without another handler in between. *)
Definition handleMessage (now : Qc) (message : LiveServerMessage) (c : LiveClient)
  : LiveClient * list Effect :=
  match audioToPlay message c with
  | Some base64Audio =>
      let '(c1, e1) := beforeDecode now c in
      match decodeAudioData base64Audio with
      | None => (c1, e1)
      | Some audioBuffer =>
          let '(c2, e2) := afterDecode audioBuffer c1 in
          let '(c3, e3) := onInterrupted message c2 in
          (c3, e1 ++ e2 ++ e3)
      end
  | None => onInterrupted message c
  end.


(** The inbound stream: messages handled one after the other, each with the
    device time at which it is handled. *)
Fixpoint handleAll (inbound : list (Qc * LiveServerMessage)) (c : LiveClient)
  : LiveClient * list Effect :=
  match inbound with
  | [] => (c, [])
  | (now, message) :: rest =>
      let '(c1, e1) := handleMessage now message c in
      let '(c2, e2) := handleAll rest c1 in
      (c2, e1 ++ e2)
  end.

End HandleMessage.

(** The ['ended'] listener of a scheduled source, run at device time [now]. *)
Definition onEnded (now : Qc) (c : LiveClient) : list Effect :=
  match outputAudioContext c with
  | Some _ =>
      if decide (nextStartTime c - Q2Qc 0.1 ≤ now) then [OnAiSpeakingStop] else []
  | None => []
  end.

(** Scheduled audio is still pending at device time [now]: the cursor lies
    ahead of the clock. *)
Definition pending (now : Qc) (c : LiveClient) : Prop := now < nextStartTime c.

(** Runs [next] after [first], keeping the calls of both in order. *)
Definition andThen (first : LiveClient * list Effect)
    (next : LiveClient → LiveClient * list Effect) : LiveClient * list Effect :=
  let '(c1, e1) := first in
  let '(c2, e2) := next c1 in
  (c2, e1 ++ e2).

(** The guarded blocks of [disconnect()], in the order of the source. *)
Definition stopMetering (c : LiveClient) : LiveClient * list Effect :=
  match volumeInterval c with
  | Some h =>
      ({| inputAudioContext := inputAudioContext c;
          outputAudioContext := outputAudioContext c;
          mediaStream := mediaStream c;
          processor := processor c;
          source := source c;
          nextStartTime := nextStartTime c;
          sessionPromise := sessionPromise c;
          currentSession := currentSession c;
          analyser := analyser c;
          volumeInterval := None |}, [ClearInterval h])
  | None => (c, [])
  end.

Definition dropProcessor (c : LiveClient) : LiveClient * list Effect :=
  match processor c with
  | Some h =>
      ({| inputAudioContext := inputAudioContext c;
          outputAudioContext := outputAudioContext c;
          mediaStream := mediaStream c;
          processor := None;
          source := source c;
          nextStartTime := nextStartTime c;
          sessionPromise := sessionPromise c;
          currentSession := currentSession c;
          analyser := analyser c;
          volumeInterval := volumeInterval c |}, [ProcessorDisconnect h])
  | None => (c, [])
  end.

Definition dropSource (c : LiveClient) : LiveClient * list Effect :=
  match source c with
  | Some h =>
      ({| inputAudioContext := inputAudioContext c;
          outputAudioContext := outputAudioContext c;
          mediaStream := mediaStream c;
          processor := processor c;
          source := None;
          nextStartTime := nextStartTime c;
          sessionPromise := sessionPromise c;
          currentSession := currentSession c;
          analyser := analyser c;
          volumeInterval := volumeInterval c |}, [SourceDisconnect h])
  | None => (c, [])
  end.

Definition dropMediaStream (c : LiveClient) : LiveClient * list Effect :=
  match mediaStream c with
  | Some h =>
      ({| inputAudioContext := inputAudioContext c;
          outputAudioContext := outputAudioContext c;
          mediaStream := None;
          processor := processor c;
          source := source c;
          nextStartTime := nextStartTime c;
          sessionPromise := sessionPromise c;
          currentSession := currentSession c;
          analyser := analyser c;
          volumeInterval := volumeInterval c |}, [StopTracks h])
  | None => (c, [])
  end.

Definition closeInput (c : LiveClient) : LiveClient * list Effect :=
  match inputAudioContext c with
  | Some h =>
      ({| inputAudioContext := None;
          outputAudioContext := outputAudioContext c;
          mediaStream := mediaStream c;
          processor := processor c;
          source := source c;
          nextStartTime := nextStartTime c;
          sessionPromise := sessionPromise c;
          currentSession := currentSession c;
          analyser := analyser c;
          volumeInterval := volumeInterval c |}, [CloseContext h])
  | None => (c, [])
  end.

Definition closeOutput (c : LiveClient) : LiveClient * list Effect :=
  match outputAudioContext c with
  | Some h =>
      ({| inputAudioContext := inputAudioContext c;
          outputAudioContext := None;
          mediaStream := mediaStream c;
          processor := processor c;
          source := source c;
          nextStartTime := nextStartTime c;
          sessionPromise := sessionPromise c;
          currentSession := currentSession c;
          analyser := analyser c;
          volumeInterval := volumeInterval c |}, [CloseContext h])
  | None => (c, [])
  end.

Definition dropSession (c : LiveClient) : LiveClient * list Effect :=
  ({| inputAudioContext := inputAudioContext c;
      outputAudioContext := outputAudioContext c;
      mediaStream := mediaStream c;
      processor := processor c;
      source := source c;
      nextStartTime := nextStartTime c;
      sessionPromise := None;
      currentSession := None;
      analyser := analyser c;
      volumeInterval := volumeInterval c |}, []).

(** [disconnect()], with both [close()] promises fulfilled. *)
Definition disconnect (c : LiveClient) : LiveClient * list Effect :=
  andThen (andThen (andThen (andThen (andThen (andThen
    (stopMetering c) dropProcessor) dropSource) dropMediaStream)
    closeInput) closeOutput) dropSession.

(** The references [disconnect()] is to leave null. *)
Definition released (c : LiveClient) : Prop :=
  volumeInterval c = None ∧ processor c = None ∧ source c = None
  ∧ mediaStream c = None ∧ inputAudioContext c = None
  ∧ outputAudioContext c = None ∧ currentSession c = None
  ∧ sessionPromise c = None.

(** The buffer sources started in a list of calls begin at [floor] or
    later, and each one at the end of the one before it or later. *)
Fixpoint wellSpaced (floor : Qc) (calls : list Effect) : Prop :=
  match calls with
  | [] => True
  | SourceStart when buffer :: rest =>
      floor ≤ when ∧ wellSpaced (when + duration buffer) rest
  | _ :: rest => wellSpaced floor rest
  end.

(** The sum computed by the metering timer over the [Uint8Array] filled by
    [getByteFrequencyData]. *)
Definition byteSum (dataArray : list Byte.byte) : N :=
  foldl (λ sum b, (sum + Byte.to_N b)%N) 0%N dataArray.

(** The callback of [startMonitoringAiVolume]: the value handed to
    [onAiVolumeChange], when there is an analyser. *)
Definition monitorAiVolume (dataArray : list Byte.byte) (c : LiveClient) : option Qc :=
  match analyser c with
  | Some _ =>
      let average := Q2Qc (inject_Z (Z.of_N (byteSum dataArray)))
                     / Q2Qc (inject_Z (Z.of_nat (length dataArray))) in
      Some (average / Q2Qc 128)
  | None => None
  end.

End liveClient.

(** ** components/AvatarDisplay.tsx: expressions set by [animate] *)

Module AvatarDisplay.
Import JS.

(** The refs the expression logic works on: [isBlinkingRef] and the weights
    held by [vrm.expressionManager], as written by [setValue]. *)
Record Refs : Type := mkRefs {
  isBlinking : bool;
  expressions : gmap string Qc
}.

(** What one frame reads from the other refs and from the clock. *)
Record Frame : Type := mkFrame {
  currentIsAiTalking : bool;
  currentAiVolume : Qc;
  cameraActive : bool;
  blinkValue : Qc                (* Math.sin(Date.now() / 50) * 2 *)
}.

Inductive Effect : Type :=
| ScheduleNextBlink.

#[global] Instance Refs_eq_dec : EqDecision Refs.
Proof. solve_decision. Defined.

(** [em.getValue(name)] and [em.setValue(name, weight)]. *)
Definition getValue (name : string) (em : gmap string Qc) : Qc := or0 (em !! name).
Definition setValue (name : string) (weight : Qc) (em : gmap string Qc) : gmap string Qc :=
  <[name := weight]> em.

(** [THREE.MathUtils.lerp(x, y, t)] *)
Definition lerp (x y t : Qc) : Qc := (1 - t) * x + t * y.

(** [handleAutoBlink(vrm)] *)
Definition handleAutoBlink (f : Frame) (r : Refs) : Refs * list Effect :=
  if isBlinking r then
    if decide (blinkValue f < 0)
    then (mkRefs false (setValue "blink" 0 (expressions r)), [ScheduleNextBlink])
    else (mkRefs (isBlinking r)
                 (setValue "blink" (Math_min 1 (blinkValue f)) (expressions r)), [])
  else (r, []).

(** The decay of one expression in auto mode:
    [if (em.getValue(n) > 0) em.setValue(n, em.getValue(n) * 0.9)]. *)
Definition decay (name : string) (em : gmap string Qc) : gmap string Qc :=
  if decide (0 < getValue name em)
  then setValue name (getValue name em * Q2Qc 0.9) em
  else em.

(** [get(name)] on the calibrated blendshapes [s]. *)
Definition get (s : gmap string Qc) (name : string) : Qc := or0 (s !! name).

Definition snapBlink (blink : Qc) : Qc :=
  if decide (Q2Qc 0.4 < blink) then 1 else blink.

(** [happy] as computed by the expression logic. *)
Definition happyOf (s : gmap string Qc) : Qc :=
  let smileRaw := (get s "mouthSmileLeft" + get s "mouthSmileRight") / Q2Qc 2 in
  Math_min 1 (smileRaw * Q2Qc 1.5).

(** The value written to ["aa"] when the AI is not talking. *)
Definition jawOpenOf (s : gmap string Qc) : Qc :=
  let jawOpen := get s "jawOpen" in
  if decide (Q2Qc 0.2 < happyOf s) then 0 else Math_min 1 (jawOpen * Q2Qc 1.5).

(** The block under [if (Object.keys(s).length > 0)]. *)
Definition expressionLogic (f : Frame) (s : gmap string Qc) (em : gmap string Qc)
  : gmap string Qc :=
  let blinkL := snapBlink (get s "eyeBlinkLeft") in
  let blinkR := snapBlink (get s "eyeBlinkRight") in
  let em := setValue "blinkLeft" blinkL em in
  let em := setValue "blinkRight" blinkR em in
  let happy := happyOf s in
  let em := setValue "happy" happy em in
  let angryRaw := (get s "browDownLeft" + get s "browDownRight") / Q2Qc 2 in
  let angry := Math_min 1 (angryRaw * Q2Qc 1.5) * (1 - happy) in
  let em := setValue "angry" angry em in
  let em := setValue "sad" (get s "browInnerUp" * (1 - happy)) em in
  let em := setValue "surprised" (get s "browOuterUpLeft" + get s "browOuterUpRight") em in
  if negb (currentIsAiTalking f) then
    let em := setValue "aa" (jawOpenOf s) em in
    let pucker := get s "mouthPucker" in
    if bool_decide (Q2Qc 0.4 < pucker) && bool_decide (happy < Q2Qc 0.3)
    then setValue "ou" (Math_min 1 (pucker * Q2Qc 1.5)) em
    else setValue "ou" 0 em
  else em.

(** The [LIP SYNC] block. *)
Definition lipSync (f : Frame) (em : gmap string Qc) : gmap string Qc :=
  if currentIsAiTalking f then
    let em := setValue "ou" 0 em in
    let em := setValue "oh" 0 em in
    let openAmount := Math_min 1 (currentAiVolume f * Q2Qc 4) in
    let currentAa := getValue "aa" em in
    setValue "aa" (lerp currentAa openAmount (Q2Qc 0.5)) em
  else if negb (cameraActive f) then
    let currentAa := getValue "aa" em in
    if decide (Q2Qc 0.01 < currentAa) then setValue "aa" (currentAa * Q2Qc 0.8) em else em
  else em.

(** The expression part of [animate], for a loaded avatar ([vrmRef.current]
    set); bone rotations are left out. *)
Definition animate (f : Frame) (tracker : faceTracker.FaceTracker) (r : Refs)
  : Refs * list Effect :=
  let '(r1, e1) :=
    if negb (cameraActive f) then
      let '(r0, e0) := handleAutoBlink f r in
      let em := expressions r0 in
      let em := if negb (currentIsAiTalking f) then decay "angry" (decay "happy" em) else em in
      (mkRefs (isBlinking r0) em, e0)
    else
      let s := faceTracker.getCalibratedBlendshapes tracker in
      if bool_decide (s ≠ ∅)
      then (mkRefs (isBlinking r) (expressionLogic f s (expressions r)), [])
      else (r, []) in
  (mkRefs (isBlinking r1) (lipSync f (expressions r1)), e1).

End AvatarDisplay.

(** ** App.tsx: the connection handlers *)

Module App.
Import JS.

(** [ConnectionStatus] of types.ts. *)
Inductive ConnectionStatus : Type :=
| DISCONNECTED
| CONNECTING
| CONNECTED
| ERROR.

(** Calls made by the handlers: [alert], and the calls of the client. *)
Inductive Effect : Type :=
| Alert
| ClientCall (call : liveClient.Effect).

(** The state of the component the handlers write, with the client ref. *)
Record AppState : Type := mkAppState {
  status : ConnectionStatus;
  isAiTalking : bool;
  userVolume : Qc;
  aiVolume : Qc;
  liveClientRef : option liveClient.LiveClient
}.

#[global] Instance ConnectionStatus_eq_dec : EqDecision ConnectionStatus.
Proof. solve_decision. Defined.
#[global] Instance AppEffect_eq_dec : EqDecision Effect.
Proof. solve_decision. Defined.
#[global] Instance AppState_eq_dec : EqDecision AppState.
Proof. solve_decision. Defined.

(** The initial values of the [useState] and [useRef] hooks. *)
Definition initial : AppState := mkAppState DISCONNECTED false 0 0 None.

(** [handleDisconnect()] *)
Definition handleDisconnect (a : AppState) : AppState * list Effect :=
  (mkAppState DISCONNECTED false 0 0 None,
   match liveClientRef a with
   | Some client => ClientCall <$> snd (liveClient.disconnect client)
   | None => []
   end).

(** The [client.onError] callback installed by [handleConnect]. *)
Definition onError (a : AppState) : AppState * list Effect :=
  let '(a1, e1) := handleDisconnect a in
  (a1, Alert :: e1).

(** [handleConnect()], with [apiKey] telling whether [process.env.API_KEY]
    is set, [modelUrl = config.modelUrl], and the outcome of
    [client.connect] on the client it creates. *)
Definition handleConnect (apiKey : bool) (modelUrl : option string)
    (f : liveClient.Fresh) (o : liveClient.ConnectOutcome) (a : AppState)
  : AppState * list Effect :=
  if negb apiKey then (a, [Alert]) else
  if negb (from_option truthy false modelUrl) then (a, [Alert]) else
  let '(client, calls) := liveClient.connect f o liveClient.new in
  match o with
  | liveClient.Connected =>
      (mkAppState CONNECTED (isAiTalking a) (userVolume a) (aiVolume a) (Some client),
       ClientCall <$> calls)
  | _ =>
      let '(a1, e1) := handleDisconnect a in
      (mkAppState ERROR (isAiTalking a1) (userVolume a1) (aiVolume a1) (liveClientRef a1),
       (ClientCall <$> calls) ++ Alert :: e1)
  end.

End App.

(** ** Concrete states and inputs *)

Module Scenarios.
Import JS.

(** No Euler angles are needed where no inference runs. *)
Definition noEuler (matrixData : list Qc) : faceTracker.Vec3 := faceTracker.zero3.

Definition stillVideo : faceTracker.VideoReadings :=
  faceTracker.mkReadings 0 false false.

(** A running tracker with the given dictionaries and head rotation target. *)
Definition tracking (calibrated : bool) (currents neutrals : gmap string Qc)
    (targetRotation : faceTracker.Vec3) : faceTracker.FaceTracker :=
  {| faceTracker.faceLandmarker := true;
     faceTracker.video := Some (faceTracker.mkVideo true);
     faceTracker.lastVideoTime := 0;
     faceTracker.lastTrackingTime := 0;
     faceTracker.isRunning := true;
     faceTracker.targetBlendshapes := ∅;
     faceTracker.currentBlendshapes := currents;
     faceTracker._neutralBlendshapes := neutrals;
     faceTracker._neutralRotation := faceTracker.zero3;
     faceTracker._neutralPosition := faceTracker.zero3;
     faceTracker._isCalibrated := calibrated;
     faceTracker._targetRotation := targetRotation;
     faceTracker._targetPosition := faceTracker.zero3;
     faceTracker.rotation := faceTracker.zero3;
     faceTracker.position := faceTracker.zero3 |}.

(** Jaw at 0.6 over a neutral 0.2, and a full smile over a neutral 0. *)
Definition calibratedFace : faceTracker.FaceTracker :=
  tracking true
    (<["jawOpen" := Q2Qc 0.6]> (<["mouthSmileLeft" := 1]> ∅))
    (<["jawOpen" := Q2Qc 0.2]> (<["mouthSmileLeft" := 0]> ∅))
    faceTracker.zero3.

(** A tracker whose head target lies one radian away on the x axis. *)
Definition turningHead : faceTracker.FaceTracker :=
  tracking false ∅ ∅ (faceTracker.mkVec3 1 0 0).

(** A tracker that was started, calibrated and stopped again. *)
Definition stoppedAgain : faceTracker.FaceTracker :=
  let t := faceTracker.start faceTracker.new in
  let t := fst (faceTracker.loadeddata noEuler 0 stillVideo faceTracker.Throws t) in
  let t := fst (faceTracker.calibrate t) in
  fst (faceTracker.stop t).

(** A client after [connect] and [handleOpen]. *)
Definition connected : liveClient.LiveClient :=
  liveClient.startAudioInput 7 8
    (fst (liveClient.connect (liveClient.mkFresh 1 2 3 4 5 6) liveClient.Connected
                             liveClient.new)).

(** A decoder that knows two payloads, of 0.5 s and 0.3 s at 24 kHz, and
    throws on every other one. *)
Definition decodeAudioData (base64Audio : string) : option liveClient.AudioBuffer :=
  if String.eqb base64Audio "chunk1" then Some (liveClient.mkAudioBuffer 12000 24000)
  else if String.eqb base64Audio "chunk2" then Some (liveClient.mkAudioBuffer 7200 24000)
  else None.

Definition audio (base64Audio : string) : liveClient.LiveServerMessage :=
  liveClient.mkMessage (Some base64Audio) false.


(** The client once the first chunk has been handled at device time 0. *)
Definition afterChunk1 : liveClient.LiveClient :=
  fst (liveClient.handleMessage decodeAudioData 0 (audio "chunk1") connected).

(** A face with a slight smile (0.2 on both sides) and the jaw wide open. *)
Definition smilingFace : faceTracker.FaceTracker :=
  tracking false
    (<["mouthSmileLeft" := Q2Qc 0.2]>
       (<["mouthSmileRight" := Q2Qc 0.2]> (<["jawOpen" := Q2Qc 0.9]> ∅)))
    ∅ faceTracker.zero3.

Definition trackingFrame : AvatarDisplay.Frame :=
  AvatarDisplay.mkFrame false 0 true 0.

Definition restingAvatar : AvatarDisplay.Refs := AvatarDisplay.mkRefs false ∅.

(** A detection of one face with a broad smile and an open jaw. *)
Definition smilingDetection : faceTracker.Detection :=
  faceTracker.Results
    [[faceTracker.mkCategory "mouthSmileLeft" (Q2Qc 0.8);
      faceTracker.mkCategory "jawOpen" (Q2Qc 0.5)]] [].

(** The video shows a new frame, 50 ms into the stream. *)
Definition freshVideo : faceTracker.VideoReadings :=
  faceTracker.mkReadings (Q2Qc 0.05) false false.

(** The 32 bins of the analyser, all at full scale. *)
Definition loudBins : list Byte.byte := replicate 32 Byte.xff.

(** Frames with the AI talking at volume 0.1, camera on and off, and a
    silent frame without camera during a blink. *)
Definition talkingFrame : AvatarDisplay.Frame :=
  AvatarDisplay.mkFrame true (Q2Qc 0.1) true 0.

Definition autoFrame : AvatarDisplay.Frame :=
  AvatarDisplay.mkFrame false 0 false (Q2Qc 0.5).

(** An avatar in the middle of a blink, its mouth left open at 0.5. *)
Definition blinkingAvatar : AvatarDisplay.Refs :=
  AvatarDisplay.mkRefs true (<["aa" := Q2Qc 0.5]> ∅).

End Scenarios.

(** * Properties *)

(** ** Arithmetic of the rationals used by the source *)

Module JSFacts.
Import JS.

(** Moves an order or equality goal on [Qc] to [Q], with the hypotheses. *)
Ltac to_Q :=
  unfold Qcle, Qclt, Qcminus, Qcplus, Qcmult, Qcopp, Q2Qc in *;
  repeat (simpl this in * || rewrite !Qred_correct in * ).

Ltac qc_order := to_Q; lra.
Ltac qc_equal := apply Qc_is_canon; to_Q; lra.

Lemma Math_max_l (a b : Qc) : a ≤ Math_max a b.
Proof.
  unfold Math_max. destruct (decide (a < b)) as [Hlt|_].
  - apply Qclt_le_weak, Hlt.
  - apply Qcle_refl.
Qed.


Lemma Math_max_0 (v : Qc) : (if decide (v < 0) then 0 else v) = Math_max 0 v.
Proof.
  unfold Math_max.
  destruct (decide (v < 0)) as [Hneg|Hpos], (decide (0 < v)) as [Hpos'|Hneg'];
    try reflexivity.
  - exfalso. eapply Qclt_not_le; [exact Hneg|]. apply Qclt_le_weak, Hpos'.
  - apply Qcle_antisym; apply Qcnot_lt_le; assumption.
Qed.

End JSFacts.

(** ** The face tracker *)

Module faceTrackerFacts.
Import JS JSFacts faceTracker.

(** The clamp of [getCalibratedBlendshapes] is [Math.max(0, _)]. *)
Lemma calibratedValue_max (neutrals : gmap string Qc) (key : string) (v : Qc) :
  calibratedValue neutrals key v = Math_max 0 (v - or0 (neutrals !! key)) * Q2Qc 1.5.
Proof. unfold calibratedValue. cbn [or0 default]. by rewrite Math_max_0. Qed.

(** The dictionary built by the loop of [getCalibratedBlendshapes] holds, at
    each key, the calibrated value of what [currentBlendshapes] holds there. *)
Lemma calibrated_loop_lookup (neutrals currents : gmap string Qc) (key : string) :
  map_fold (λ k v (calibrated : gmap string Qc),
              <[k := calibratedValue neutrals k v]> calibrated)
           ∅ currents !! key
  = calibratedValue neutrals key <$> currents !! key.
Proof.
  induction currents as [|k v m Hfresh Hfirst IH] using map_first_key_ind.
  - by rewrite map_fold_empty, !lookup_empty.
  - rewrite map_fold_insert_first_key by done.
    destruct (decide (k = key)) as [->|Hne].
    + by rewrite !lookup_insert_eq.
    + by rewrite !lookup_insert_ne.
Qed.

Lemma getCalibratedBlendshapes_dom (t : FaceTracker) :
  dom (getCalibratedBlendshapes t) = dom (currentBlendshapes t).
Proof.
  unfold getCalibratedBlendshapes. destruct (_isCalibrated t); [|done].
  apply set_eq. intros key. rewrite !elem_of_dom. cbn [negb].
  rewrite calibrated_loop_lookup. apply fmap_is_Some.
Qed.

(** C1. For a key that the current frame holds with value [current]: once
    calibrated, [getCalibratedBlendshapes] gives
    [Math.max(0, current - baseline[key]) * 1.5] at that key, with no clamp
    from above (a key absent from the baseline counts as 0, as [|| 0] makes
    it); while uncalibrated, it gives back the current values as they are. *)
Theorem getCalibratedBlendshapes_spec (t : FaceTracker) (key : string) (current : Qc) :
  currentBlendshapes t !! key = Some current →
  (_isCalibrated t = true →
     getCalibratedBlendshapes t !! key
     = Some (Math_max 0 (current - or0 (_neutralBlendshapes t !! key)) * Q2Qc 1.5))
  ∧ (_isCalibrated t = false →
     getCalibratedBlendshapes t = currentBlendshapes t).
Proof.
  intros Hkey. unfold getCalibratedBlendshapes. split; intros ->; cbn [negb].
  - by rewrite calibrated_loop_lookup, Hkey, <- calibratedValue_max.
  - reflexivity.
Qed.

Lemma getCalibratedBlendshapes_spec_witness :
  getCalibratedBlendshapes Scenarios.calibratedFace !! "jawOpen" = Some (Q2Qc 0.6)
  ∧ getCalibratedBlendshapes Scenarios.calibratedFace !! "mouthSmileLeft" = Some (Q2Qc 1.5).
Proof.
  split.
  - assert (currentBlendshapes Scenarios.calibratedFace !! "jawOpen" = Some (Q2Qc 0.6))
      as Hjaw by (vm_compute; reflexivity).
    rewrite (proj1 (getCalibratedBlendshapes_spec _ _ _ Hjaw) eq_refl).
    compute_done.
  - assert (currentBlendshapes Scenarios.calibratedFace !! "mouthSmileLeft" = Some 1)
      as Hsmile by (vm_compute; reflexivity).
    rewrite (proj1 (getCalibratedBlendshapes_spec _ _ _ Hsmile) eq_refl).
    compute_done.
Defined.

(** *** Smoothing *)

Lemma smoothN_S (n : nat) (t : FaceTracker) :
  smoothN (S n) t = updateSmoothing (smoothN n t).
Proof. reflexivity. Qed.

Lemma channel_S (target : Qc) (n : nat) (start : Qc) :
  channel target (S n) start = lerp (channel target n start) target SMOOTHING_FACTOR.
Proof. reflexivity. Qed.

Lemma smoothN_targets (n : nat) (t : FaceTracker) :
  _targetRotation (smoothN n t) = _targetRotation t
  ∧ _targetPosition (smoothN n t) = _targetPosition t
  ∧ targetBlendshapes (smoothN n t) = targetBlendshapes t.
Proof.
  induction n as [|n IH]; [done|].
  rewrite smoothN_S. exact IH.
Qed.

(** Each rotation and position axis is one scalar channel. *)
Lemma rotation_channel (axis : Vec3 → Qc) (n : nat) (t : FaceTracker) :
  axis = x ∨ axis = y ∨ axis = z →
  axis (rotation (smoothN n t)) = channel (axis (_targetRotation t)) n (axis (rotation t))
  ∧ axis (position (smoothN n t)) = channel (axis (_targetPosition t)) n (axis (position t)).
Proof.
  intros Haxis. induction n as [|n [IHr IHp]]; [done|].
  rewrite smoothN_S, !channel_S, <- IHr, <- IHp.
  destruct (smoothN_targets n t) as (Hr & Hp & _); rewrite <- Hr, <- Hp.
  destruct Haxis as [-> | [-> | ->]]; done.
Qed.

(** The blendshape loop of [updateSmoothing], read at one key. *)
Lemma smoothing_loop_lookup (targets currents : gmap string Qc) (key : string) :
  map_fold smoothKey currents targets !! key
  = match targets !! key with
    | Some v => Some (lerp (or0 (currents !! key))
                           (if decide (v < Q2Qc 0.05) then 0 else v) SMOOTHING_FACTOR)
    | None => currents !! key
    end.
Proof.
  induction targets as [|k v m Hfresh Hfirst IH] using map_first_key_ind.
  - by rewrite map_fold_empty, lookup_empty.
  - rewrite map_fold_insert_first_key by done. unfold smoothKey at 1.
    destruct (decide (k = key)) as [->|Hne].
    + rewrite !lookup_insert_eq, IH, Hfresh. done.
    + rewrite !lookup_insert_ne by done. exact IH.
Qed.

(** Each blendshape key with a target is one scalar channel, toward the
    target with the noise floor cut off. *)
Lemma blendshape_channel (key : string) (v : Qc) (n : nat) (t : FaceTracker) :
  targetBlendshapes t !! key = Some v →
  or0 (currentBlendshapes (smoothN n t) !! key)
  = channel (if decide (v < Q2Qc 0.05) then 0 else v) n
            (or0 (currentBlendshapes t !! key)).
Proof.
  intros Hkey. induction n as [|n IH]; [done|].
  rewrite smoothN_S, channel_S, <- IH. cbn [updateSmoothing currentBlendshapes].
  rewrite smoothing_loop_lookup.
  destruct (smoothN_targets n t) as (_ & _ & Hb); rewrite Hb. by rewrite Hkey.
Qed.

Lemma channel_one_step (state : Qc) :
  Q2Qc 0.999 ≤ state → state ≤ 1 →
  Q2Qc 0.999 ≤ lerp state 1 SMOOTHING_FACTOR ∧ lerp state 1 SMOOTHING_FACTOR ≤ 1.
Proof. intros Hlo Hhi. unfold lerp, SMOOTHING_FACTOR. split; qc_order. Qed.

(** C9. A channel that starts at 0 and is smoothed toward the constant
    target 1.0 with factor 0.7 is at 0.999 or above after 6 updates, and
    stays there: in particular after at most 10 updates. *)
Theorem channel_converges (n : nat) :
  (6 ≤ n)%nat → Q2Qc 0.999 ≤ channel 1 n 0 ∧ channel 1 n 0 ≤ 1.
Proof.
  induction 1 as [|n Hle [IHlo IHhi]].
  - split; compute_done.
  - rewrite channel_S. by apply channel_one_step.
Qed.

(** Five updates are not enough: 6 is the first count that reaches 0.999. *)
Lemma channel_after_five : channel 1 5 0 < Q2Qc 0.999.
Proof. compute_done. Qed.

Lemma channel_converges_witness :
  Q2Qc 0.999 ≤ channel 1 10 0 ∧ channel 1 10 0 ≤ 1.
Proof. apply (channel_converges 10). lia. Defined.

(** *** The tracking tick *)

Lemma track_preserves setFromRotationMatrix now r det t :
  let t' := fst (track setFromRotationMatrix now r det t) in
  isRunning t' = isRunning t
  ∧ _isCalibrated t' = _isCalibrated t
  ∧ occurrences UpdateSmoothing (snd (track setFromRotationMatrix now r det t)) = 0%nat.
Proof.
  unfold track.
  destruct det as [|[|shapes faces] [|m ms]]; done.
Qed.

Lemma predict_preserves setFromRotationMatrix now r det t :
  let t' := fst (predict setFromRotationMatrix now r det t) in
  isRunning t' = isRunning t ∧ _isCalibrated t' = _isCalibrated t.
Proof.
  unfold predict.
  destruct (negb (isRunning t) || negb (faceLandmarker t)
            || negb (bool_decide (is_Some (video t)))); [done|].
  destruct (intervalElapsed now t); [destruct (frameAdvanced r t)|]; try done.
  destruct (track_preserves setFromRotationMatrix now r det t) as (Hrun & Hcal & _).
  destruct (track setFromRotationMatrix now r det t) as [t1 e1]. done.
Qed.

(** C4, as the code has it.  On every tick of a running tracker the
    smoothing update is performed exactly once, whether or not the tick
    advances: on an advancing tick it follows the inference, on a tick the
    gate closes it is applied to the state as it stands, with the targets of
    the last advancing tick. *)
Theorem predict_smooths_every_tick setFromRotationMatrix now r det t :
  isRunning t = true → faceLandmarker t = true → is_Some (video t) →
  occurrences UpdateSmoothing (snd (predict setFromRotationMatrix now r det t)) = 1%nat
  ∧ fst (predict setFromRotationMatrix now r det t)
    = updateSmoothing (if advancing now r t
                       then fst (track setFromRotationMatrix now r det t)
                       else t).
Proof.
  intros Hrun Hmodel Hvideo. unfold predict, advancing.
  rewrite Hrun, Hmodel, (bool_decide_eq_true_2 _ Hvideo). cbn [negb orb].
  destruct (track_preserves setFromRotationMatrix now r det t) as (Hrun' & _ & Hnone).
  destruct (intervalElapsed now t); [destruct (frameAdvanced r t)|]; cbn [andb];
    [destruct (track setFromRotationMatrix now r det t) as [t1 e1]|..];
    cbn [fst snd updateSmoothing isRunning] in *;
    rewrite ?Hrun', ?Hrun; (split; [|done]);
    unfold occurrences in *; rewrite ?filter_app, ?length_app, ?Hnone; reflexivity.
Qed.

Lemma predict_smooths_every_tick_witness :
  occurrences UpdateSmoothing
    (snd (predict Scenarios.noEuler (Q2Qc 10) Scenarios.stillVideo Throws
                  Scenarios.turningHead)) = 1%nat
  ∧ fst (predict Scenarios.noEuler (Q2Qc 10) Scenarios.stillVideo Throws
                 Scenarios.turningHead)
    = updateSmoothing Scenarios.turningHead.
Proof.
  apply (predict_smooths_every_tick Scenarios.noEuler (Q2Qc 10) Scenarios.stillVideo
           Throws Scenarios.turningHead); vm_compute; eauto.
Defined.

(** C4, as stated, fails: 10 ms after the last tracked frame, with no new
    video frame, the gate makes the tick a no-op for the inference, and the
    smoothing update is performed all the same: the head rotation moves from
    0 to 0.7 of its target. *)
Lemma smoothing_on_gated_tick :
  let tick := predict Scenarios.noEuler (Q2Qc 10) Scenarios.stillVideo Throws
                      Scenarios.turningHead in
  advancing (Q2Qc 10) Scenarios.stillVideo Scenarios.turningHead = false
  ∧ snd tick = [UpdateSmoothing; RequestAnimationFrame]
  ∧ rotation Scenarios.turningHead = mkVec3 0 0 0
  ∧ rotation (fst tick) = mkVec3 (Q2Qc 0.7) 0 0.
Proof. repeat split; compute_done. Qed.

(** *** Calibration *)

Lemma step_calibrated_only_running setFromRotationMatrix t t' :
  step setFromRotationMatrix t t' →
  calibrated_only_running t → calibrated_only_running t'.
Proof.
  unfold calibrated_only_running.
  destruct 1 as [t|t|now r det t Hvideo|now r det t|t|t]; intros Hinv.
  - unfold initialize. by destruct (faceLandmarker t).
  - unfold start, initialize. by destruct (faceLandmarker t).
  - unfold loadeddata.
    match goal with |- context [predict _ _ _ _ ?t0] =>
      destruct (predict_preserves setFromRotationMatrix now r det t0) as [-> _]
    end. done.
  - destruct (predict_preserves setFromRotationMatrix now r det t) as [-> ->]. done.
  - unfold calibrate. destruct (isRunning t) eqn:Hrun; cbn [negb fst].
    + done.
    + intros _. by apply Hinv.
  - done.
Qed.

Lemma reachable_calibrated_only_running setFromRotationMatrix t :
  reachable setFromRotationMatrix t → calibrated_only_running t.
Proof.
  unfold reachable. revert t. apply rtc_ind_r.
  - done.
  - intros t1 t2 _ Hstep IH. by eapply step_calibrated_only_running.
Qed.

(** C7. On a tracker that is not running, [calibrate()] does nothing: the
    tracker is returned as it was, every field and so the stored neutral
    blendshapes, rotation and position included, no call is made, and the
    calibrated flag, which is false on every such tracker a program can
    reach, is false afterwards. *)
Theorem calibrate_stopped_noop setFromRotationMatrix t :
  reachable setFromRotationMatrix t → isRunning t = false →
  calibrate t = (t, []) ∧ _isCalibrated (fst (calibrate t)) = false.
Proof.
  intros Hreach Hstopped.
  assert (calibrate t = (t, [])) as Hnoop by (unfold calibrate; by rewrite Hstopped).
  split; [exact Hnoop|]. rewrite Hnoop.
  by apply (reachable_calibrated_only_running setFromRotationMatrix).
Qed.

Lemma stoppedAgain_reachable : reachable Scenarios.noEuler Scenarios.stoppedAgain.
Proof.
  unfold reachable, Scenarios.stoppedAgain.
  eapply rtc_r; [|apply step_stop].
  eapply rtc_r; [|apply step_calibrate].
  eapply rtc_r; [|apply step_loadeddata; by eexists].
  eapply rtc_r; [|apply step_start].
  apply rtc_refl.
Qed.

Lemma calibrate_stopped_noop_witness :
  calibrate Scenarios.stoppedAgain = (Scenarios.stoppedAgain, [])
  ∧ _isCalibrated (fst (calibrate Scenarios.stoppedAgain)) = false.
Proof.
  apply (calibrate_stopped_noop Scenarios.noEuler Scenarios.stoppedAgain).
  - exact stoppedAgain_reachable.
  - vm_compute. reflexivity.
Defined.

End faceTrackerFacts.

(** ** The live client *)

Module liveClientFacts.
Import JS JSFacts liveClient.

Lemma duration_nonneg (b : AudioBuffer) : 0 ≤ duration b.
Proof.
  unfold duration. to_Q. unfold Qle. cbn [Qnum Qden]. lia.
Qed.

Lemma advance_le (start : Qc) (b : AudioBuffer) : start ≤ start + duration b.
Proof. pose proof (duration_nonneg b) as Hd. qc_order. Qed.



(** C3, as the code has it.  [onAiSpeakingStart] is emitted by the handling
    of a message exactly when the message carries a payload that is played,
    whatever the cursor and the device time are: also while earlier audio is
    still pending. *)
Theorem speakingStart_on_every_payload decodeAudioData now message c :
  OnAiSpeakingStart ∈ snd (handleMessage decodeAudioData now message c)
  ↔ is_Some (audioToPlay message c).
Proof.
  unfold handleMessage, onInterrupted.
  destruct (audioToPlay message c) as [base64Audio|]; cbn [beforeDecode].
  - split; [by eexists|intros _].
    destruct (decodeAudioData base64Audio) as [audioBuffer|]; cbn [afterDecode];
      destruct (interrupted message); cbn [snd app]; apply elem_of_cons; by left.
  - split; [|by intros [? ?]].
    destruct (interrupted message); cbn [snd]; intros Hin;
      repeat (apply elem_of_cons in Hin as [Hin|Hin]; [discriminate|]);
      by apply elem_of_nil in Hin.
Qed.

(** C3, as stated, fails: the second chunk arrives at device time 0, while
    the first one, scheduled up to 0.5, is pending, and [onAiSpeakingStart]
    is emitted again. *)
Lemma speakingStart_while_pending :
  pending 0 Scenarios.afterChunk1
  ∧ OnAiSpeakingStart
    ∈ snd (handleMessage Scenarios.decodeAudioData 0 (Scenarios.audio "chunk2")
                         Scenarios.afterChunk1).
Proof. split; compute_done. Qed.

(** Neither half of the audio branch moves the cursor backwards, so that
    no interleaving of handlers at the [await] can either. *)
Lemma beforeDecode_cursor_le now c :
  nextStartTime c ≤ nextStartTime (fst (beforeDecode now c)).
Proof. apply Math_max_l. Qed.

Lemma afterDecode_cursor_le audioBuffer c :
  nextStartTime c ≤ nextStartTime (fst (afterDecode audioBuffer c)).
Proof. apply advance_le. Qed.

Lemma handleMessage_cursor_le decodeAudioData now message c :
  interrupted message = false →
  nextStartTime c ≤ nextStartTime (fst (handleMessage decodeAudioData now message c)).
Proof.
  intros Hflag. unfold handleMessage, onInterrupted. rewrite Hflag.
  destruct (audioToPlay message c) as [base64Audio|]; [|apply Qcle_refl].
  pose proof (beforeDecode_cursor_le now c) as Hbefore.
  destruct (beforeDecode now c) as [c1 e1].
  destruct (decodeAudioData base64Audio) as [audioBuffer|]; [|exact Hbefore].
  pose proof (afterDecode_cursor_le audioBuffer c1) as Hafter.
  destruct (afterDecode audioBuffer c1) as [c2 e2].
  cbn [fst] in *. by eapply Qcle_trans.
Qed.

(** C5. The handling of a message without the interrupted flag never moves
    [nextStartTime] backwards: the cursor after the step is at least the
    cursor before it, whether the message carries audio or not and whether
    the audio decodes or not. *)
Theorem cursor_monotone decodeAudioData now message c :
  interrupted message = false →
  nextStartTime c ≤ nextStartTime (fst (handleMessage decodeAudioData now message c)).
Proof. apply handleMessage_cursor_le. Qed.

Lemma cursor_monotone_witness :
  nextStartTime Scenarios.afterChunk1
  ≤ nextStartTime (fst (handleMessage Scenarios.decodeAudioData 0
                          (Scenarios.audio "chunk2") Scenarios.afterChunk1)).
Proof.
  apply (cursor_monotone Scenarios.decodeAudioData 0 (Scenarios.audio "chunk2")
           Scenarios.afterChunk1).
  reflexivity.
Defined.

(** The same along a stream of messages, none of them interrupted. *)
Lemma cursor_monotone_stream decodeAudioData inbound c :
  Forall (λ m, interrupted m.2 = false) inbound →
  nextStartTime c ≤ nextStartTime (fst (handleAll decodeAudioData inbound c)).
Proof.
  intros Hall. revert c.
  induction Hall as [|[now message] rest Hflag _ IH]; intros c; cbn [handleAll].
  - apply Qcle_refl.
  - pose proof (handleMessage_cursor_le decodeAudioData now message c Hflag) as Hstep.
    destruct (handleMessage decodeAudioData now message c) as [c1 e1].
    specialize (IH c1).
    destruct (handleAll decodeAudioData rest c1) as [c2 e2].
    cbn [fst] in *. by eapply Qcle_trans.
Qed.



(** Each guarded block of [disconnect()] does nothing on a client whose
    references are null. *)
Lemma disconnect_released c : released c → disconnect c = (c, []).
Proof.
  destruct c as [input output stream proc src next promise session an interval].
  unfold released. cbn. intros (-> & -> & -> & -> & -> & -> & -> & ->).
  reflexivity.
Qed.

Lemma disconnect_releases c : released (fst (disconnect c)).
Proof.
  destruct c as [[?|] [?|] [?|] [?|] [?|] next promise session an [?|]];
    repeat split.
Qed.

(** C10. After [disconnect()] the metering timer, the processor, the
    source, the microphone stream, both audio contexts, the session and the
    session promise are null; a second [disconnect()] makes no call and
    returns the client as it was. *)
Theorem disconnect_idempotent c :
  released (fst (disconnect c))
  ∧ disconnect (fst (disconnect c)) = (fst (disconnect c), []).
Proof.
  split.
  - apply disconnect_releases.
  - apply disconnect_released, disconnect_releases.
Qed.

End liveClientFacts.

(** ** The expression logic of the avatar *)

Module AvatarDisplayFacts.
Import JS JSFacts AvatarDisplay.


(** Without the AI talking and with the camera on, the lip-sync block writes
    nothing. *)
Lemma lipSync_tracking_silent f em :
  currentIsAiTalking f = false → cameraActive f = true → lipSync f em = em.
Proof. intros Hsilent Hcamera. unfold lipSync. by rewrite Hsilent, Hcamera. Qed.



End AvatarDisplayFacts.

(** * Further behaviour of the code *)

(** ** More arithmetic *)

Module JSMoreFacts.
Import JS JSFacts.

Lemma Math_min_l (a b : Qc) : Math_min a b ≤ a.
Proof.
  unfold Math_min. destruct (decide (b < a)) as [Hlt|_].
  - apply Qclt_le_weak, Hlt.
  - apply Qcle_refl.
Qed.

Lemma Math_min_r (a b : Qc) : Math_min a b ≤ b.
Proof.
  unfold Math_min. destruct (decide (b < a)) as [_|Hge].
  - apply Qcle_refl.
  - apply Qcnot_lt_le, Hge.
Qed.

Lemma Math_min_glb (lower a b : Qc) : lower ≤ a → lower ≤ b → lower ≤ Math_min a b.
Proof. intros Ha Hb. unfold Math_min. by destruct (decide (b < a)). Qed.

Lemma Math_max_lub (upper a b : Qc) : a ≤ upper → b ≤ upper → Math_max a b ≤ upper.
Proof. intros Ha Hb. unfold Math_max. by destruct (decide (a < b)). Qed.

Lemma Qc_sub_diag (v : Qc) : v - v = 0.
Proof. ring. Qed.

(** An interpolation with a factor between 0 and 1 stays between its ends. *)
Lemma interpolation_between (lower upper start end_ amt : Qc) :
  0 ≤ amt → amt ≤ 1 →
  lower ≤ start → start ≤ upper → lower ≤ end_ → end_ ≤ upper →
  lower ≤ (1 - amt) * start + amt * end_ ∧ (1 - amt) * start + amt * end_ ≤ upper.
Proof. intros. split; to_Q; nra. Qed.

End JSMoreFacts.

(** ** The face tracker: calibration, shutdown, throttle, smoothing *)

Module faceTrackerBehaviour.
Import JS JSFacts JSMoreFacts faceTracker faceTrackerFacts.

(** X1. Right after [calibrate()] on a running tracker the calibrated views
    are neutral: rotation and position are the zero vector, and every
    blendshape key of the current frame reads 0. *)
Theorem calibrate_zeroes_views (t : FaceTracker) :
  isRunning t = true →
  let t' := fst (calibrate t) in
  getCalibratedRotation t' = zero3
  ∧ getCalibratedPosition t' = zero3
  ∧ ∀ key, getCalibratedBlendshapes t' !! key = (λ _, 0) <$> currentBlendshapes t !! key.
Proof.
  intros Hrun. unfold calibrate. rewrite Hrun. cbn [negb fst].
  unfold getCalibratedRotation, getCalibratedPosition, getCalibratedBlendshapes.
  cbn [_isCalibrated negb rotation position _neutralRotation _neutralPosition
       currentBlendshapes _neutralBlendshapes].
  rewrite !Qc_sub_diag. repeat split.
  intros key. rewrite calibrated_loop_lookup.
  destruct (currentBlendshapes t !! key) as [v|] eqn:Hkey; [|done].
  cbn [fmap option_fmap option_map]. f_equal.
  unfold calibratedValue. rewrite Hkey. cbn [or0 default].
  rewrite Qc_sub_diag. destruct (decide (0 < 0)) as [Hlt|_]; [|ring].
  by apply Qclt_not_eq in Hlt.
Qed.

Lemma calibrate_zeroes_views_witness :
  let t' := fst (calibrate Scenarios.calibratedFace) in
  getCalibratedRotation t' = zero3
  ∧ getCalibratedPosition t' = zero3
  ∧ ∀ key, getCalibratedBlendshapes t' !! key
           = (λ _, 0) <$> currentBlendshapes Scenarios.calibratedFace !! key.
Proof. apply (calibrate_zeroes_views Scenarios.calibratedFace). reflexivity. Defined.

(** X2. The calibrated blendshapes have exactly the keys of the current
    frame, and once a baseline exists none of them is negative. *)
Theorem calibrated_blendshapes_nonneg (t : FaceTracker) :
  _isCalibrated t = true →
  dom (getCalibratedBlendshapes t) = dom (currentBlendshapes t)
  ∧ map_Forall (λ _ v, 0 ≤ v) (getCalibratedBlendshapes t).
Proof.
  intros Hcal. split; [apply getCalibratedBlendshapes_dom|].
  intros key v. unfold getCalibratedBlendshapes. rewrite Hcal. cbn [negb].
  rewrite calibrated_loop_lookup.
  destruct (currentBlendshapes t !! key) as [current|]; [|done].
  intros [= <-]. rewrite calibratedValue_max.
  pose proof (Math_max_l 0 (current - or0 (_neutralBlendshapes t !! key))) as Hmax.
  generalize dependent (Math_max 0 (current - or0 (_neutralBlendshapes t !! key))).
  intros m Hmax. to_Q. nra.
Qed.

Lemma calibrated_blendshapes_nonneg_witness :
  dom (getCalibratedBlendshapes Scenarios.calibratedFace)
  = dom (currentBlendshapes Scenarios.calibratedFace)
  ∧ map_Forall (λ _ v, 0 ≤ v) (getCalibratedBlendshapes Scenarios.calibratedFace).
Proof. apply (calibrated_blendshapes_nonneg Scenarios.calibratedFace). reflexivity. Defined.

(** X3. [stop()] ends the tracking for good: a second [stop()], a pending
    [predict()] callback and a [calibrate()] all leave the stopped tracker
    as it is and make no call (the loop is not re-armed); the blendshape
    view falls back to the raw current values and the position view to the
    zero vector. *)
Theorem stop_ends_tracking setFromRotationMatrix now r det (t : FaceTracker) :
  let t' := fst (stop t) in
  stop t' = (t', [])
  ∧ predict setFromRotationMatrix now r det t' = (t', [])
  ∧ calibrate t' = (t', [])
  ∧ getCalibratedBlendshapes t' = currentBlendshapes t
  ∧ getCalibratedPosition t' = zero3.
Proof.
  cbn zeta. unfold stop.
  destruct (video t) as [[[|]]|]; cbn [srcObject fst video]; repeat split.
Qed.

(** What a tick leaves untouched, and the times it records. *)
Lemma predict_frame setFromRotationMatrix now r det (t : FaceTracker) :
  let t' := fst (predict setFromRotationMatrix now r det t) in
  video t' = video t ∧ faceLandmarker t' = faceLandmarker t.
Proof.
  unfold predict.
  destruct (negb (isRunning t) || negb (faceLandmarker t)
            || negb (bool_decide (is_Some (video t)))); [done|].
  destruct (intervalElapsed now t); [destruct (frameAdvanced r t)|]; try done.
  unfold track. destruct det as [|[|shapes faces] [|m ms]]; done.
Qed.

Lemma predict_advancing_times setFromRotationMatrix now r det (t : FaceTracker) :
  isRunning t = true → faceLandmarker t = true → is_Some (video t) →
  advancing now r t = true →
  let t' := fst (predict setFromRotationMatrix now r det t) in
  lastTrackingTime t' = now ∧ lastVideoTime t' = currentTime r.
Proof.
  intros Hrun Hmodel Hvideo Hadv. unfold predict.
  rewrite Hrun, Hmodel, (bool_decide_eq_true_2 _ Hvideo). cbn [negb orb].
  unfold advancing in Hadv. apply andb_true_iff in Hadv as [-> ->].
  unfold track. destruct det as [|[|shapes faces] [|m ms]]; done.
Qed.

(** X4. The inference is throttled: after a tick that ran the inference at
    time [now] on a video frame, a later tick does not run it again while
    less than 1000/24 ms have passed, nor while the video still shows that
    same frame. *)
Theorem inference_throttled setFromRotationMatrix now r det now' r' (t : FaceTracker) :
  isRunning t = true → faceLandmarker t = true → is_Some (video t) →
  advancing now r t = true →
  now' - now < FRAME_INTERVAL ∨ currentTime r' = currentTime r →
  advancing now' r' (fst (predict setFromRotationMatrix now r det t)) = false.
Proof.
  intros Hrun Hmodel Hvideo Hadv Hsoon.
  destruct (predict_advancing_times setFromRotationMatrix now r det t
              Hrun Hmodel Hvideo Hadv) as [Htime Hframe].
  unfold advancing, intervalElapsed, frameAdvanced. rewrite Htime, Hframe.
  destruct Hsoon as [Hsoon|Hsame].
  - rewrite bool_decide_eq_false_2; [done|]. by apply Qclt_not_le.
  - rewrite (bool_decide_eq_false_2 (currentTime r' ≠ currentTime r)) by auto.
    by rewrite andb_false_r.
Qed.

Lemma inference_throttled_witness :
  advancing (Q2Qc 70) Scenarios.freshVideo
    (fst (predict Scenarios.noEuler (Q2Qc 50) Scenarios.freshVideo
            Scenarios.smilingDetection Scenarios.turningHead)) = false.
Proof.
  apply (inference_throttled Scenarios.noEuler (Q2Qc 50) Scenarios.freshVideo
           Scenarios.smilingDetection (Q2Qc 70) Scenarios.freshVideo
           Scenarios.turningHead);
    [reflexivity|reflexivity|by eexists|vm_compute; reflexivity|].
  left. vm_compute. reflexivity.
Defined.

(** A tracker that runs has its video element, and a tracker with a video
    element has its model. *)
Lemma step_running_ready setFromRotationMatrix t t' :
  step setFromRotationMatrix t t' →
  (isRunning t = true → is_Some (video t)) ∧ (is_Some (video t) → faceLandmarker t = true) →
  (isRunning t' = true → is_Some (video t')) ∧ (is_Some (video t') → faceLandmarker t' = true).
Proof.
  destruct 1 as [t|t|now r det t Hvideo|now r det t|t|t]; intros [Hrun Hmodel].
  - unfold initialize. destruct (faceLandmarker t) eqn:Hloaded; cbn; rewrite ?Hloaded; auto.
  - unfold start, initialize. destruct (faceLandmarker t) eqn:Hloaded; cbn; eauto.
  - unfold loadeddata.
    match goal with |- context [predict _ _ _ _ ?t0] =>
      destruct (predict_frame setFromRotationMatrix now r det t0) as [-> ->]
    end. cbn. auto.
  - destruct (predict_frame setFromRotationMatrix now r det t) as [-> ->].
    destruct (predict_preserves setFromRotationMatrix now r det t) as [-> _]. done.
  - unfold calibrate. destruct (isRunning t) eqn:Hstate; cbn; rewrite ?Hstate; auto.
  - unfold stop. cbn. split; [done|].
    destruct (video t) as [[[|]]|]; cbn; eauto.
Qed.

Lemma reachable_running_ready setFromRotationMatrix t :
  reachable setFromRotationMatrix t →
  (isRunning t = true → is_Some (video t)) ∧ (is_Some (video t) → faceLandmarker t = true).
Proof.
  unfold reachable. revert t. apply rtc_ind_r.
  - split; [done|]. by intros [? ?].
  - intros t1 t2 _ Hstep IH. by eapply step_running_ready.
Qed.

(** X5. On every tracker a program can reach, a tick of the running loop
    smooths and ends by re-arming itself, and leaves the tracker running:
    the loop ends only through [stop()]. *)
Theorem running_loop_rearms setFromRotationMatrix now r det (t : FaceTracker) :
  reachable setFromRotationMatrix t → isRunning t = true →
  last (snd (predict setFromRotationMatrix now r det t)) = Some RequestAnimationFrame
  ∧ UpdateSmoothing ∈ snd (predict setFromRotationMatrix now r det t)
  ∧ isRunning (fst (predict setFromRotationMatrix now r det t)) = true.
Proof.
  intros Hreach Hrun.
  destruct (reachable_running_ready _ _ Hreach) as [Hvideo Hmodel].
  specialize (Hvideo Hrun). specialize (Hmodel Hvideo).
  destruct (predict_preserves setFromRotationMatrix now r det t) as [Hrun' _].
  split; [|split]; [| |by rewrite Hrun'].
  all: unfold predict;
    rewrite Hrun, Hmodel, (bool_decide_eq_true_2 _ Hvideo); cbn [negb orb];
    destruct (track_preserves setFromRotationMatrix now r det t) as (Htrack & _ & _);
    destruct (intervalElapsed now t); [destruct (frameAdvanced r t)|];
    [destruct (track setFromRotationMatrix now r det t) as [t1 e1]|..];
    cbn [fst snd updateSmoothing isRunning] in *; rewrite ?Htrack, Hrun.
  all: rewrite ?last_app; try done.
  all: rewrite !elem_of_app, elem_of_cons; auto.
Qed.

Lemma running_loop_rearms_witness :
  let tick := predict Scenarios.noEuler (Q2Qc 50) Scenarios.freshVideo
                      Scenarios.smilingDetection
                      (fst (loadeddata Scenarios.noEuler 0 Scenarios.stillVideo Throws
                              (start new))) in
  last (snd tick) = Some RequestAnimationFrame
  ∧ UpdateSmoothing ∈ snd tick
  ∧ isRunning (fst tick) = true.
Proof.
  apply (running_loop_rearms Scenarios.noEuler (Q2Qc 50) Scenarios.freshVideo
           Scenarios.smilingDetection
           (fst (loadeddata Scenarios.noEuler 0 Scenarios.stillVideo Throws (start new)))).
  - unfold reachable.
    eapply rtc_r; [|apply step_loadeddata; by eexists].
    eapply rtc_r; [|apply step_start].
    apply rtc_refl.
  - vm_compute. reflexivity.
Defined.

(** X6. A tick whose inference throws or finds no face keeps the targets of
    the smoothing as they were: the avatar goes on converging to the last
    pose that was seen. *)
Theorem targets_kept_without_face setFromRotationMatrix now r det (t : FaceTracker) :
  det = Throws ∨ (∃ matrixes, det = Results [] matrixes) →
  targets (fst (predict setFromRotationMatrix now r det t)) = targets t.
Proof.
  intros Hnone. unfold predict.
  destruct (negb (isRunning t) || negb (faceLandmarker t)
            || negb (bool_decide (is_Some (video t)))); [done|].
  destruct (intervalElapsed now t); [destruct (frameAdvanced r t)|]; try done.
  destruct Hnone as [->|[matrixes ->]]; done.
Qed.

Lemma targets_kept_without_face_witness :
  targets (fst (predict Scenarios.noEuler (Q2Qc 50) Scenarios.freshVideo Throws
                        Scenarios.turningHead))
  = targets Scenarios.turningHead.
Proof.
  apply (targets_kept_without_face Scenarios.noEuler (Q2Qc 50) Scenarios.freshVideo
           Throws Scenarios.turningHead).
  left. reflexivity.
Defined.

(** *** Targets and smoothing *)

(** X7. Storing the categories of a face: a name that occurs among them
    gets the score of its last occurrence, every other key keeps its
    target. *)
Theorem storeShapes_last_wins (shapes : list Category) (targets : gmap string Qc)
    (key : string) :
  storeShapes shapes targets !! key
  = match last (filter (λ c, categoryName c = key) shapes) with
    | Some c => Some (score c)
    | None => targets !! key
    end.
Proof.
  unfold storeShapes.
  induction shapes as [|c shapes IH] using rev_ind; [done|].
  rewrite foldl_snoc, filter_app, last_app.
  destruct (decide (categoryName c = key)) as [<-|Hother].
  - rewrite filter_cons_True by done. cbn [filter list_filter last].
    by rewrite lookup_insert_eq.
  - rewrite filter_cons_False by done. cbn [filter list_filter last].
    by rewrite lookup_insert_ne.
Qed.

(** X8. A smoothing update never drops a key: afterwards the current
    blendshapes have the keys they had and those of the targets, and a key
    without a target keeps its value. *)
Theorem updateSmoothing_keys (t : FaceTracker) :
  dom (currentBlendshapes (updateSmoothing t))
  = dom (currentBlendshapes t) ∪ dom (targetBlendshapes t)
  ∧ ∀ key, targetBlendshapes t !! key = None →
           currentBlendshapes (updateSmoothing t) !! key = currentBlendshapes t !! key.
Proof.
  cbn [updateSmoothing currentBlendshapes]. split.
  - apply set_eq. intros key.
    rewrite elem_of_union, !elem_of_dom, smoothing_loop_lookup.
    destruct (targetBlendshapes t !! key) as [v|].
    + split; [intros _; right|intros _]; by eexists.
    + split; [by left|]. by intros [?|[? ?]].
  - intros key Hkey. by rewrite smoothing_loop_lookup, Hkey.
Qed.

Lemma storeShapes_unitRange (shapes : list Category) (targets : gmap string Qc) :
  Forall (λ c, 0 ≤ score c ∧ score c ≤ 1) shapes →
  unitRange targets → unitRange (storeShapes shapes targets).
Proof.
  intros Hscores. revert targets.
  induction Hscores as [|c shapes Hc _ IH]; intros targets Htargets; [done|].
  apply IH. by apply map_Forall_insert_2.
Qed.

Lemma updateSmoothing_unitRange (t : FaceTracker) :
  unitRange (currentBlendshapes t) → unitRange (targetBlendshapes t) →
  unitRange (currentBlendshapes (updateSmoothing t)).
Proof.
  intros Hcurrent Htarget key v. cbn [updateSmoothing currentBlendshapes].
  rewrite smoothing_loop_lookup.
  destruct (targetBlendshapes t !! key) as [target|] eqn:Hkey; [|apply Hcurrent].
  intros [= <-]. apply interpolation_between; try compute_done.
  - destruct (currentBlendshapes t !! key) as [current|] eqn:Hc; [|done].
    by apply (Hcurrent key current).
  - destruct (currentBlendshapes t !! key) as [current|] eqn:Hc; [|done].
    by apply (Hcurrent key current).
  - destruct (decide (target < Q2Qc 0.05)); [done|]. by apply (Htarget key target).
  - destruct (decide (target < Q2Qc 0.05)); [done|]. by apply (Htarget key target).
Qed.

(** X9. Blendshapes stay in range: when the current and target blendshapes
    lie between 0 and 1 and the detector reports scores between 0 and 1,
    they lie between 0 and 1 after the tick as well. *)
Theorem blendshapes_stay_in_range setFromRotationMatrix now r det (t : FaceTracker) :
  unitRange (currentBlendshapes t) → unitRange (targetBlendshapes t) →
  scoresInRange det →
  let t' := fst (predict setFromRotationMatrix now r det t) in
  unitRange (currentBlendshapes t') ∧ unitRange (targetBlendshapes t').
Proof.
  intros Hcurrent Htarget Hscores. unfold predict.
  destruct (negb (isRunning t) || negb (faceLandmarker t)
            || negb (bool_decide (is_Some (video t)))); [done|].
  assert (∀ t1, unitRange (currentBlendshapes t1) → unitRange (targetBlendshapes t1) →
                unitRange (currentBlendshapes (updateSmoothing t1))
                ∧ unitRange (targetBlendshapes (updateSmoothing t1))) as Hsmooth.
  { intros t1 H1 H2. split; [by apply updateSmoothing_unitRange|done]. }
  destruct (intervalElapsed now t); [destruct (frameAdvanced r t)|];
    cbn [fst]; try by apply Hsmooth.
  unfold track.
  destruct det as [|[|shapes faces] [|m ms]]; cbn [fst]; apply Hsmooth; try done.
  all: cbn [targetBlendshapes]; apply storeShapes_unitRange; [|done].
  all: by apply Forall_cons_1 in Hscores as [? _].
Qed.

Lemma blendshapes_stay_in_range_witness :
  let t' := fst (predict Scenarios.noEuler (Q2Qc 50) Scenarios.freshVideo
                         Scenarios.smilingDetection Scenarios.turningHead) in
  unitRange (currentBlendshapes t') ∧ unitRange (targetBlendshapes t').
Proof.
  apply (blendshapes_stay_in_range Scenarios.noEuler (Q2Qc 50) Scenarios.freshVideo
           Scenarios.smilingDetection Scenarios.turningHead).
  - unfold unitRange. vm_compute. intros i v Hnone. discriminate Hnone.
  - unfold unitRange. vm_compute. intros i v Hnone. discriminate Hnone.
  - repeat constructor; vm_compute; discriminate.
Defined.

(** X10. The distance of a smoothed channel to a fixed target shrinks by
    the factor 0.3 with every update: after [n] updates the channel is at
    [target + 0.3^n * (start - target)]. *)
Theorem channel_closed_form (target : Qc) (n : nat) (start : Qc) :
  channel target n start = target + Q2Qc 0.3 ^ n * (start - target).
Proof.
  induction n as [|n IH].
  - change (channel target 0 start) with start. cbn [Qcpower]. ring.
  - rewrite channel_S, IH. unfold lerp, SMOOTHING_FACTOR. cbn [Qcpower].
    assert (1 - Q2Qc 0.7 = Q2Qc 0.3) as -> by compute_done.
    assert (Q2Qc 0.7 = 1 - Q2Qc 0.3) as -> by compute_done.
    ring.
Qed.

End faceTrackerBehaviour.

(** ** The live client: scheduling, speaking events, teardown *)

Module liveClientBehaviour.
Import JS JSFacts JSMoreFacts liveClient liveClientFacts.




Lemma wellSpaced_weaken floor floor' calls :
  floor' ≤ floor → wellSpaced floor calls → wellSpaced floor' calls.
Proof.
  intros Hle. induction calls as [|call calls IH]; [done|].
  destruct call; cbn [wellSpaced]; try exact IH.
  intros [Hfloor Hrest]. split; [by eapply Qcle_trans|done].
Qed.

(** X12. Along a stream of messages without the interrupted flag the
    scheduled buffers never overlap: each source starts at the end of the
    source started before it or later, the first one at the initial cursor
    or later. *)
Theorem stream_never_overlaps decodeAudioData inbound c :
  Forall (λ m, interrupted m.2 = false) inbound →
  wellSpaced (nextStartTime c) (snd (handleAll decodeAudioData inbound c)).
Proof.
  intros Hall. revert c.
  induction Hall as [|[now message] rest Hflag _ IH]; intros c; [done|].
  cbn [handleAll]. cbn [snd] in Hflag.
  pose proof (handleMessage_cursor_le decodeAudioData now message c Hflag) as Hstep.
  revert Hstep. unfold handleMessage, onInterrupted. rewrite Hflag.
  destruct (audioToPlay message c) as [base64Audio|]; cbn [beforeDecode];
    [destruct (decodeAudioData base64Audio) as [audioBuffer|]; cbn [afterDecode]|];
    cbn [fst]; intros Hstep;
    match goal with |- context [handleAll _ _ ?c1] =>
      specialize (IH c1); destruct (handleAll decodeAudioData rest c1) as [c2 e2]
    end; cbn [snd app wellSpaced] in *.
  - split; [apply Math_max_l|exact IH].
  - by eapply wellSpaced_weaken.
  - exact IH.
Qed.

Lemma stream_never_overlaps_witness :
  wellSpaced (nextStartTime Scenarios.connected)
    (snd (handleAll Scenarios.decodeAudioData
            [(0, Scenarios.audio "chunk1"); (Q2Qc 0.2, Scenarios.audio "chunk2")]
            Scenarios.connected)).
Proof.
  apply (stream_never_overlaps Scenarios.decodeAudioData
           [(0, Scenarios.audio "chunk1"); (Q2Qc 0.2, Scenarios.audio "chunk2")]
           Scenarios.connected).
  repeat constructor.
Defined.





(** X15. When the decoding of a payload throws, the handling has announced
    [onAiSpeakingStart] and nothing else: no source is started, an
    interrupted flag of the same message is not acted on, and the cursor is
    left at [Math.max(nextStartTime, currentTime)]. *)
Theorem undecodable_payload decodeAudioData now message c base64Audio :
  audioToPlay message c = Some base64Audio →
  decodeAudioData base64Audio = None →
  handleMessage decodeAudioData now message c
  = (setNextStartTime (Math_max (nextStartTime c) now) c, [OnAiSpeakingStart]).
Proof.
  intros Hplay Hthrows. unfold handleMessage. rewrite Hplay. cbn [beforeDecode].
  by rewrite Hthrows.
Qed.

Lemma undecodable_payload_witness :
  handleMessage Scenarios.decodeAudioData (Q2Qc 0.2)
    (mkMessage (Some "noise") true) Scenarios.afterChunk1
  = (setNextStartTime (Math_max (nextStartTime Scenarios.afterChunk1) (Q2Qc 0.2))
       Scenarios.afterChunk1, [OnAiSpeakingStart]).
Proof.
  apply (undecodable_payload Scenarios.decodeAudioData (Q2Qc 0.2)
           (mkMessage (Some "noise") true) Scenarios.afterChunk1 "noise");
    reflexivity.
Defined.

(** *** Teardown *)

(** X16. [disconnect()] releases each resource the client holds exactly
    once, in the order timer, processor, source, microphone stream, input
    context, output context, and makes no other call; it keeps the analyser
    and the playback cursor. *)
Theorem disconnect_releases_each_once c :
  snd (disconnect c)
  = release ClearInterval (volumeInterval c)
    ++ release ProcessorDisconnect (processor c)
    ++ release SourceDisconnect (source c)
    ++ release StopTracks (mediaStream c)
    ++ release CloseContext (inputAudioContext c)
    ++ release CloseContext (outputAudioContext c)
  ∧ analyser (fst (disconnect c)) = analyser c
  ∧ nextStartTime (fst (disconnect c)) = nextStartTime c.
Proof.
  destruct c as [[?|] [?|] [?|] [?|] [?|] next promise session an [?|]];
    repeat split.
Qed.

(** X17. After [disconnect()] the client is deaf: an inbound message plays
    no audio (only its interrupted flag is still acted on), a late
    [handleOpen] allocates nothing, and a buffer that ends emits no
    [onAiSpeakingStop]. *)
Theorem disconnected_client_is_deaf decodeAudioData now message
    freshSource freshProcessor c :
  let c' := fst (disconnect c) in
  handleMessage decodeAudioData now message c' = onInterrupted message c'
  ∧ startAudioInput freshSource freshProcessor c' = c'
  ∧ onEnded now c' = [].
Proof.
  destruct (disconnect_releases c) as (_ & _ & _ & _ & Hinput & Houtput & _).
  cbn zeta. unfold handleMessage, audioToPlay, startAudioInput, onEnded.
  rewrite Hinput, Houtput. by destruct (inlineData message).
Qed.

(** X18. A whole session gives back what it took: after [connect],
    [handleOpen] and [disconnect] on a new client, the timer, the
    processor, the source, the microphone stream and both contexts handed
    out have each been released once, and the client is as new except for
    the analyser it still refers to. *)
Theorem session_round_trip (f : Fresh) (freshSource freshProcessor : positive) :
  let c := startAudioInput freshSource freshProcessor (fst (connect f Connected new)) in
  snd (disconnect c)
  = [ClearInterval (freshInterval f); ProcessorDisconnect freshProcessor;
     SourceDisconnect freshSource; StopTracks (freshStream f);
     CloseContext (freshInput f); CloseContext (freshOutput f)]
  ∧ fst (disconnect c)
    = {| inputAudioContext := None; outputAudioContext := None; mediaStream := None;
         processor := None; source := None; nextStartTime := 0;
         sessionPromise := None; currentSession := None;
         analyser := Some (freshAnalyser f); volumeInterval := None |}.
Proof. split; reflexivity. Qed.

(** *** Metering *)

Lemma byteSum_bound (dataArray : list Byte.byte) (sum : N) :
  (foldl (λ sum b, sum + Byte.to_N b) sum dataArray
   ≤ sum + 255 * N.of_nat (length dataArray))%N.
Proof.
  revert sum. induction dataArray as [|b dataArray IH]; intros sum; cbn [foldl length].
  - lia.
  - specialize (IH (sum + Byte.to_N b)%N).
    pose proof (Byte.to_N_bounded b). lia.
Qed.

(** X19. The AI volume reported by the metering timer over its 32 bins lies
    between 0 and 255/128: it may exceed 1. *)
Theorem aiVolume_range (dataArray : list Byte.byte) c volume :
  length dataArray = 32%nat →
  monitorAiVolume dataArray c = Some volume →
  0 ≤ volume ∧ volume ≤ Q2Qc (255 # 128).
Proof.
  intros Hbins. unfold monitorAiVolume. destruct (analyser c); [|done].
  intros [= <-]. rewrite Hbins.
  pose proof (byteSum_bound dataArray 0) as Hsum. rewrite Hbins in Hsum.
  fold (byteSum dataArray) in Hsum.
  assert (0 ≤ Z.of_N (byteSum dataArray) ≤ 8160)%Z as [Hlo Hhi] by lia.
  rewrite Zle_Qle in Hlo, Hhi.
  change (inject_Z 0) with 0%Q in Hlo. change (inject_Z 8160) with 8160%Q in Hhi.
  clear Hsum. generalize dependent (inject_Z (Z.of_N (byteSum dataArray))).
  intros total Hlo Hhi.
  change (inject_Z (Z.of_nat 32)) with 32%Q.
  unfold Qcdiv, Qcinv. to_Q.
  change (/ 32)%Q with (1 # 32)%Q. change (/ 128)%Q with (1 # 128)%Q.
  split; lra.
Qed.

Lemma aiVolume_range_witness :
  0 ≤ Q2Qc (255 # 128) ∧ Q2Qc (255 # 128) ≤ Q2Qc (255 # 128).
Proof.
  apply (aiVolume_range Scenarios.loudBins Scenarios.connected (Q2Qc (255 # 128)));
    [reflexivity|].
  apply (bool_decide_unpack _). vm_compute. reflexivity.
Defined.

End liveClientBehaviour.

(** ** The avatar: what a frame writes and what it leaves *)

Module AvatarDisplayBehaviour.
Import JS JSFacts JSMoreFacts AvatarDisplay AvatarDisplayFacts.

Lemma lipSync_other f em name :
  name ≠ "ou" → name ≠ "oh" → name ≠ "aa" → lipSync f em !! name = em !! name.
Proof.
  intros Hou Hoh Haa. unfold lipSync, setValue.
  destruct (currentIsAiTalking f); [|destruct (negb (cameraActive f));
    [destruct (decide (Q2Qc 0.01 < getValue "aa" em))|]];
    by rewrite ?lookup_insert_ne.
Qed.

(** The keys the tracking block writes whether the AI talks or not. *)
Lemma expressionLogic_writes f s em :
  let happy := happyOf s in
  let logic := expressionLogic f s em in
  logic !! "blinkLeft" = Some (snapBlink (get s "eyeBlinkLeft"))
  ∧ logic !! "blinkRight" = Some (snapBlink (get s "eyeBlinkRight"))
  ∧ logic !! "happy" = Some happy
  ∧ logic !! "angry"
    = Some (Math_min 1 ((get s "browDownLeft" + get s "browDownRight") / Q2Qc 2 * Q2Qc 1.5)
            * (1 - happy))
  ∧ logic !! "sad" = Some (get s "browInnerUp" * (1 - happy))
  ∧ logic !! "surprised" = Some (get s "browOuterUpLeft" + get s "browOuterUpRight")
  ∧ logic !! "blink" = em !! "blink".
Proof.
  cbn zeta. unfold expressionLogic, setValue.
  destruct (currentIsAiTalking f); cbn [negb];
    [|destruct (bool_decide (Q2Qc 0.4 < get s "mouthPucker")
               && bool_decide (happyOf s < Q2Qc 0.3))];
    repeat split; by simplify_map_eq.
Qed.

Lemma expressionLogic_talking f s em :
  currentIsAiTalking f = true →
  expressionLogic f s em !! "aa" = em !! "aa".
Proof.
  intros Htalking. unfold expressionLogic, setValue. rewrite Htalking. cbn [negb].
  by simplify_map_eq.
Qed.

Lemma expressionLogic_pucker f s em :
  currentIsAiTalking f = false →
  expressionLogic f s em !! "aa" = Some (jawOpenOf s)
  ∧ expressionLogic f s em !! "ou"
    = Some (if bool_decide (Q2Qc 0.4 < get s "mouthPucker")
               && bool_decide (happyOf s < Q2Qc 0.3)
            then Math_min 1 (get s "mouthPucker" * Q2Qc 1.5) else 0).
Proof.
  intros Hsilent. unfold expressionLogic, setValue. rewrite Hsilent. cbn [negb].
  destruct (bool_decide (Q2Qc 0.4 < get s "mouthPucker")
            && bool_decide (happyOf s < Q2Qc 0.3)); split; by simplify_map_eq.
Qed.

(** A frame in tracking mode with blendshapes at hand. *)
Lemma animate_tracking f tracker r :
  cameraActive f = true → faceTracker.getCalibratedBlendshapes tracker ≠ ∅ →
  animate f tracker r
  = (mkRefs (isBlinking r)
       (lipSync f (expressionLogic f (faceTracker.getCalibratedBlendshapes tracker)
                                   (expressions r))), []).
Proof.
  intros Hcamera Hshapes. unfold animate. rewrite Hcamera. cbn [negb].
  by rewrite (bool_decide_eq_true_2 _ Hshapes).
Qed.

Lemma happy_le_1 s : happyOf s ≤ 1.
Proof. apply Math_min_l. Qed.

(** X20. Happy excludes angry and sad: a tracking frame leaves
    happy at 1 or below and happy + angry at 1 or below, and with happy at 1
    both angry and sad are 0, whether the AI talks or not. *)
Theorem happy_excludes_angry f tracker r :
  cameraActive f = true → faceTracker.getCalibratedBlendshapes tracker ≠ ∅ →
  let em := expressions (fst (animate f tracker r)) in
  ∃ happy angry sad,
    em !! "happy" = Some happy ∧ em !! "angry" = Some angry ∧ em !! "sad" = Some sad
    ∧ happy ≤ 1 ∧ happy + angry ≤ 1
    ∧ (happy = 1 → angry = 0 ∧ sad = 0).
Proof.
  intros Hcamera Hshapes. rewrite animate_tracking by done. cbn [fst expressions].
  rewrite !lipSync_other by done.
  destruct (expressionLogic_writes f (faceTracker.getCalibratedBlendshapes tracker)
              (expressions r)) as (_ & _ & -> & -> & -> & _).
  pose proof (happy_le_1 (faceTracker.getCalibratedBlendshapes tracker)) as Hhappy.
  eexists _, _, _.
  split; [done|]. split; [done|]. split; [done|]. split; [done|].
  split; [|intros ->; split; ring].
  match goal with |- context [Math_min 1 ?v] =>
    pose proof (Math_min_l 1 v) as Hangry;
    remember (Math_min 1 v) as raw eqn:Hraw; clear Hraw
  end.
  remember (happyOf (faceTracker.getCalibratedBlendshapes tracker)) as happy eqn:Hh.
  clear Hh. to_Q. nra.
Qed.

Lemma happy_excludes_angry_witness :
  let em := expressions (fst (animate Scenarios.talkingFrame Scenarios.smilingFace
                                      Scenarios.restingAvatar)) in
  ∃ happy angry sad,
    em !! "happy" = Some happy ∧ em !! "angry" = Some angry ∧ em !! "sad" = Some sad
    ∧ happy ≤ 1 ∧ happy + angry ≤ 1
    ∧ (happy = 1 → angry = 0 ∧ sad = 0).
Proof.
  apply (happy_excludes_angry Scenarios.talkingFrame Scenarios.smilingFace
           Scenarios.restingAvatar); [reflexivity|].
  vm_compute. discriminate.
Defined.

Lemma snapBlink_le_1 blink : snapBlink blink ≤ 1.
Proof.
  unfold snapBlink. destruct (decide (Q2Qc 0.4 < blink)) as [_|Hlow]; [done|].
  apply Qcnot_lt_le in Hlow. qc_order.
Qed.

Lemma jawOpenOf_le_1 s : jawOpenOf s ≤ 1.
Proof.
  unfold jawOpenOf. destruct (decide (Q2Qc 0.2 < happyOf s)); [done|apply Math_min_l].
Qed.

(** X21. Whatever the blendshapes are (calibrated values may exceed 1), a
    silent tracking frame leaves the weights of blinkLeft, blinkRight,
    happy, aa and ou at 1 or below. *)
Theorem tracking_weights_at_most_1 f tracker r name :
  cameraActive f = true → currentIsAiTalking f = false →
  faceTracker.getCalibratedBlendshapes tracker ≠ ∅ →
  name ∈ ["blinkLeft"; "blinkRight"; "happy"; "aa"; "ou"] →
  ∃ weight, expressions (fst (animate f tracker r)) !! name = Some weight ∧ weight ≤ 1.
Proof.
  intros Hcamera Hsilent Hshapes Hname.
  rewrite animate_tracking by done. cbn [fst expressions].
  rewrite lipSync_tracking_silent by done.
  set (s := faceTracker.getCalibratedBlendshapes tracker).
  destruct (expressionLogic_writes f s (expressions r)) as (Hl & Hr & Hh & _).
  destruct (expressionLogic_pucker f s (expressions r) Hsilent) as [Haa Hou].
  repeat (apply elem_of_cons in Hname as [->|Hname]).
  - eexists. split; [exact Hl|apply snapBlink_le_1].
  - eexists. split; [exact Hr|apply snapBlink_le_1].
  - eexists. split; [exact Hh|apply happy_le_1].
  - eexists. split; [exact Haa|apply jawOpenOf_le_1].
  - eexists. split; [exact Hou|].
    destruct (_ && _); [apply Math_min_l|done].
  - by apply elem_of_nil in Hname.
Qed.

Lemma tracking_weights_at_most_1_witness :
  ∃ weight,
    expressions (fst (animate Scenarios.trackingFrame Scenarios.calibratedFace
                              Scenarios.restingAvatar)) !! "happy" = Some weight
    ∧ weight ≤ 1.
Proof.
  apply (tracking_weights_at_most_1 Scenarios.trackingFrame Scenarios.calibratedFace
           Scenarios.restingAvatar "happy"); [reflexivity|reflexivity| |].
  - vm_compute. discriminate.
  - apply (bool_decide_unpack _). vm_compute. reflexivity.
Defined.

(** X22. A silent tracking frame leaves ["ou"] at 0 unless the pucker
    exceeds 0.4 while happy is below 0.3. *)
Theorem pucker_needs_no_smile f tracker r :
  cameraActive f = true → currentIsAiTalking f = false →
  let s := faceTracker.getCalibratedBlendshapes tracker in
  s ≠ ∅ →
  ∃ ou, expressions (fst (animate f tracker r)) !! "ou" = Some ou
        ∧ (ou ≠ 0 → Q2Qc 0.4 < get s "mouthPucker" ∧ happyOf s < Q2Qc 0.3).
Proof.
  intros Hcamera Hsilent s Hshapes.
  rewrite animate_tracking by done. cbn [fst expressions]. fold s.
  rewrite lipSync_tracking_silent by done.
  destruct (expressionLogic_pucker f s (expressions r) Hsilent) as [_ ->].
  eexists. split; [done|].
  destruct (bool_decide (Q2Qc 0.4 < get s "mouthPucker")) eqn:Hpucker,
           (bool_decide (happyOf s < Q2Qc 0.3)) eqn:Hhappy; cbn [andb]; try done.
  apply bool_decide_eq_true in Hpucker, Hhappy. by intros _.
Qed.

Lemma pucker_needs_no_smile_witness :
  ∃ ou, expressions (fst (animate Scenarios.trackingFrame Scenarios.smilingFace
                                  Scenarios.restingAvatar)) !! "ou" = Some ou
        ∧ (ou ≠ 0 →
           Q2Qc 0.4 < get (faceTracker.getCalibratedBlendshapes Scenarios.smilingFace)
                          "mouthPucker"
           ∧ happyOf (faceTracker.getCalibratedBlendshapes Scenarios.smilingFace)
             < Q2Qc 0.3).
Proof.
  apply (pucker_needs_no_smile Scenarios.trackingFrame Scenarios.smilingFace
           Scenarios.restingAvatar); [reflexivity|reflexivity|].
  vm_compute. discriminate.
Defined.

(** What the mode blocks of a frame leave of ["aa"], ["ou"] and ["oh"]
    while the AI talks. *)
Lemma animate_talking f tracker r :
  currentIsAiTalking f = true →
  ∃ em, fst (animate f tracker r) = mkRefs (isBlinking (fst (animate f tracker r)))
                                           (lipSync f em)
        ∧ em !! "aa" = expressions r !! "aa".
Proof.
  intros Htalking. unfold animate, handleAutoBlink, setValue. rewrite Htalking.
  destruct (cameraActive f); cbn [negb].
  - destruct (bool_decide (faceTracker.getCalibratedBlendshapes tracker ≠ ∅)).
    + eexists. split; [done|]. by apply expressionLogic_talking.
    + by eexists.
  - destruct (isBlinking r); [destruct (decide (blinkValue f < 0))|];
      eexists; (split; [done|]); cbn [expressions]; by simplify_map_eq.
Qed.

(** ["aa"] after a frame in which the AI talks. *)
Lemma talking_drives_mouth_aux f tracker r :
  currentIsAiTalking f = true →
  getValue "aa" (expressions (fst (animate f tracker r)))
  = lerp (getValue "aa" (expressions r))
         (Math_min 1 (currentAiVolume f * Q2Qc 4)) (Q2Qc 0.5)
  ∧ (0 ≤ currentAiVolume f → 0 ≤ Math_min 1 (currentAiVolume f * Q2Qc 4)).
Proof.
  intros Htalking. destruct (animate_talking f tracker r Htalking) as (em & -> & Haa).
  cbn [expressions]. unfold lipSync, setValue, getValue. rewrite Htalking.
  split.
  - simplify_map_eq. by rewrite Haa.
  - intros Hvolume. apply Math_min_glb; [done|].
    generalize dependent (currentAiVolume f). intros volume Hvolume. qc_order.
Qed.

(** X23. While the AI talks the lip sync owns the mouth in both modes:
    the frame ends with ["ou"] and ["oh"] at 0 and ["aa"] half way between
    its value before the frame and [min(1, 4 * volume)]. *)
Theorem talking_drives_mouth f tracker r :
  currentIsAiTalking f = true →
  let em := expressions (fst (animate f tracker r)) in
  em !! "ou" = Some 0 ∧ em !! "oh" = Some 0
  ∧ em !! "aa" = Some (lerp (getValue "aa" (expressions r))
                            (Math_min 1 (currentAiVolume f * Q2Qc 4)) (Q2Qc 0.5)).
Proof.
  intros Htalking. destruct (animate_talking f tracker r Htalking) as (em & -> & Haa).
  cbn [expressions]. unfold lipSync, setValue, getValue. rewrite Htalking.
  repeat split; simplify_map_eq; [done..|]. by rewrite Haa.
Qed.

Lemma talking_drives_mouth_witness :
  let em := expressions (fst (animate Scenarios.talkingFrame Scenarios.smilingFace
                                      Scenarios.blinkingAvatar)) in
  em !! "ou" = Some 0 ∧ em !! "oh" = Some 0
  ∧ em !! "aa" = Some (lerp (getValue "aa" (expressions Scenarios.blinkingAvatar))
                            (Math_min 1 (currentAiVolume Scenarios.talkingFrame * Q2Qc 4))
                            (Q2Qc 0.5)).
Proof.
  apply (talking_drives_mouth Scenarios.talkingFrame Scenarios.smilingFace
           Scenarios.blinkingAvatar).
  reflexivity.
Defined.

(** What the mode blocks of a silent frame without camera leave alone. *)
Lemma animate_auto_silent f tracker r :
  cameraActive f = false → currentIsAiTalking f = false →
  ∃ em, expressions (fst (animate f tracker r)) = lipSync f em
        ∧ ∀ name, name ≠ "blink" → name ≠ "happy" → name ≠ "angry" →
                  em !! name = expressions r !! name.
Proof.
  intros Hcamera Hsilent. unfold animate, handleAutoBlink, decay, setValue.
  rewrite Hcamera, Hsilent. cbn [negb].
  destruct (isBlinking r); [destruct (decide (blinkValue f < 0))|];
    cbn [expressions fst];
    repeat match goal with |- context [decide (0 < ?v)] => destruct (decide (0 < v)) end;
    eexists; (split; [reflexivity|]); intros name Hblink Hhappy Hangry;
    by rewrite ?lookup_insert_ne.
Qed.

(** X24. In auto mode with the AI silent the mouth closes by the factor
    0.8 per frame while ["aa"] is above 0.01 and is left alone from then on:
    a mouth that was open by more than 0.008 never gets to 0.008 or
    below, and never opens further. *)
Theorem auto_mouth_never_closes f tracker r :
  cameraActive f = false → currentIsAiTalking f = false →
  Q2Qc 0.008 < getValue "aa" (expressions r) →
  let aa := getValue "aa" (expressions (fst (animate f tracker r))) in
  aa = (if decide (Q2Qc 0.01 < getValue "aa" (expressions r))
        then getValue "aa" (expressions r) * Q2Qc 0.8
        else getValue "aa" (expressions r))
  ∧ Q2Qc 0.008 < aa ∧ aa ≤ getValue "aa" (expressions r).
Proof.
  intros Hcamera Hsilent Hopen.
  destruct (animate_auto_silent f tracker r Hcamera Hsilent) as (em & -> & Hsame).
  assert (getValue "aa" em = getValue "aa" (expressions r)) as Haa.
  { unfold getValue. by rewrite Hsame. }
  cbn zeta. unfold lipSync. rewrite Hsilent, Hcamera. cbn [negb]. rewrite Haa.
  generalize dependent (getValue "aa" (expressions r)). intros aa Hopen Haa.
  destruct (decide (Q2Qc 0.01 < aa)) as [Hdecay|Hrest].
  - unfold getValue, setValue. rewrite lookup_insert_eq. cbn [or0 default].
    repeat split; qc_order.
  - rewrite Haa. repeat split; [done|apply Qcle_refl].
Qed.

Lemma auto_mouth_never_closes_witness :
  let aa := getValue "aa" (expressions (fst (animate Scenarios.autoFrame
                             Scenarios.smilingFace Scenarios.blinkingAvatar))) in
  aa = (if decide (Q2Qc 0.01 < getValue "aa" (expressions Scenarios.blinkingAvatar))
        then getValue "aa" (expressions Scenarios.blinkingAvatar) * Q2Qc 0.8
        else getValue "aa" (expressions Scenarios.blinkingAvatar))
  ∧ Q2Qc 0.008 < aa ∧ aa ≤ getValue "aa" (expressions Scenarios.blinkingAvatar).
Proof.
  apply (auto_mouth_never_closes Scenarios.autoFrame Scenarios.smilingFace
           Scenarios.blinkingAvatar); [reflexivity|reflexivity|].
  vm_compute. reflexivity.
Defined.

(** X25. The weight of ["aa"] stays between 0 and 1 over a frame in every
    mode, given a volume and a jaw opening that are not negative. *)
Theorem mouth_stays_in_range f tracker r :
  0 ≤ getValue "aa" (expressions r) → getValue "aa" (expressions r) ≤ 1 →
  0 ≤ currentAiVolume f →
  0 ≤ get (faceTracker.getCalibratedBlendshapes tracker) "jawOpen" →
  let aa := getValue "aa" (expressions (fst (animate f tracker r))) in
  0 ≤ aa ∧ aa ≤ 1.
Proof.
  intros Hlo Hhi Hvolume Hjaw.
  destruct (currentIsAiTalking f) eqn:Htalking.
  - destruct (talking_drives_mouth_aux f tracker r Htalking) as [-> Hopen].
    apply interpolation_between;
      [compute_done|compute_done|done|done|by apply Hopen|apply Math_min_l].
  - destruct (cameraActive f) eqn:Hcamera.
    + cbn zeta. unfold animate. rewrite Hcamera. cbn [negb].
      destruct (bool_decide (faceTracker.getCalibratedBlendshapes tracker ≠ ∅));
        cbn [fst expressions isBlinking]; rewrite lipSync_tracking_silent by done;
        [|done].
      unfold getValue.
      destruct (expressionLogic_pucker f (faceTracker.getCalibratedBlendshapes tracker)
                  (expressions r) Htalking) as [-> _].
      cbn [or0 default]. split; [|apply jawOpenOf_le_1].
      unfold jawOpenOf. destruct (decide (Q2Qc 0.2 < _)); [done|].
      apply Math_min_glb; [done|].
      generalize dependent (get (faceTracker.getCalibratedBlendshapes tracker) "jawOpen").
      intros jaw Hjaw. qc_order.
    + destruct (animate_auto_silent f tracker r Hcamera Htalking) as (em & -> & Hsame).
      assert (getValue "aa" em = getValue "aa" (expressions r)) as Haa.
      { unfold getValue. by rewrite Hsame. }
      cbn zeta. unfold lipSync. rewrite Htalking, Hcamera. cbn [negb]. rewrite Haa.
      generalize dependent (getValue "aa" (expressions r)). intros aa Hlo Hhi Haa.
      destruct (decide (Q2Qc 0.01 < aa)) as [Hdecay|Hrest].
      * unfold getValue, setValue. rewrite lookup_insert_eq. cbn [or0 default].
        split; qc_order.
      * by rewrite Haa.
Qed.

Lemma mouth_stays_in_range_witness :
  let aa := getValue "aa" (expressions (fst (animate Scenarios.talkingFrame
                             Scenarios.smilingFace Scenarios.blinkingAvatar))) in
  0 ≤ aa ∧ aa ≤ 1.
Proof.
  apply (mouth_stays_in_range Scenarios.talkingFrame Scenarios.smilingFace
           Scenarios.blinkingAvatar); vm_compute; discriminate.
Defined.

(** X26. Tracking mode leaves the automatic blink alone: a frame with the
    camera on changes neither the ["blink"] weight nor the blinking flag and
    schedules no blink, so that a blink under way when the camera is
    switched on stays where it was. *)
Theorem tracking_freezes_auto_blink f tracker r :
  cameraActive f = true →
  expressions (fst (animate f tracker r)) !! "blink" = expressions r !! "blink"
  ∧ isBlinking (fst (animate f tracker r)) = isBlinking r
  ∧ snd (animate f tracker r) = [].
Proof.
  intros Hcamera. unfold animate. rewrite Hcamera. cbn [negb].
  destruct (bool_decide (faceTracker.getCalibratedBlendshapes tracker ≠ ∅));
    cbn [fst snd expressions isBlinking]; rewrite lipSync_other by done;
    [|done].
  by destruct (expressionLogic_writes f (faceTracker.getCalibratedBlendshapes tracker)
                 (expressions r)) as (_ & _ & _ & _ & _ & _ & ->).
Qed.

Lemma tracking_freezes_auto_blink_witness :
  expressions (fst (animate Scenarios.trackingFrame Scenarios.smilingFace
                            Scenarios.blinkingAvatar)) !! "blink"
  = expressions Scenarios.blinkingAvatar !! "blink"
  ∧ isBlinking (fst (animate Scenarios.trackingFrame Scenarios.smilingFace
                             Scenarios.blinkingAvatar))
    = isBlinking Scenarios.blinkingAvatar
  ∧ snd (animate Scenarios.trackingFrame Scenarios.smilingFace
                 Scenarios.blinkingAvatar) = [].
Proof.
  apply (tracking_freezes_auto_blink Scenarios.trackingFrame Scenarios.smilingFace
           Scenarios.blinkingAvatar).
  reflexivity.
Defined.

(** X27. Auto mode leaves the expressions of the tracking alone: a frame
    with the camera off changes none of blinkLeft, blinkRight, sad and
    surprised, so that an eye that was snapped shut when the camera was
    switched off stays shut. *)
Theorem auto_keeps_tracked_expressions f tracker r name :
  cameraActive f = false →
  name ∈ ["blinkLeft"; "blinkRight"; "sad"; "surprised"] →
  expressions (fst (animate f tracker r)) !! name = expressions r !! name.
Proof.
  intros Hcamera Hname. unfold animate, handleAutoBlink, decay, setValue.
  rewrite Hcamera. cbn [negb].
  assert (name ≠ "ou" ∧ name ≠ "oh" ∧ name ≠ "aa" ∧ name ≠ "blink"
          ∧ name ≠ "happy" ∧ name ≠ "angry") as (? & ? & ? & ? & ? & ?).
  { repeat (apply elem_of_cons in Hname as [->|Hname]); [done..|].
    by apply elem_of_nil in Hname. }
  destruct (isBlinking r); [destruct (decide (blinkValue f < 0))|];
    destruct (currentIsAiTalking f); cbn [negb expressions fst isBlinking];
    repeat match goal with |- context [decide (0 < ?v)] => destruct (decide (0 < v)) end;
    rewrite lipSync_other by done; by rewrite ?lookup_insert_ne.
Qed.

Lemma auto_keeps_tracked_expressions_witness :
  expressions (fst (animate Scenarios.autoFrame Scenarios.smilingFace
                            Scenarios.blinkingAvatar)) !! "blinkLeft"
  = expressions Scenarios.blinkingAvatar !! "blinkLeft".
Proof.
  apply (auto_keeps_tracked_expressions Scenarios.autoFrame Scenarios.smilingFace
           Scenarios.blinkingAvatar "blinkLeft"); [reflexivity|].
  apply (bool_decide_unpack _). vm_compute. reflexivity.
Defined.

(** X28. A blink under way in auto mode: the frame leaves ["blink"]
    between 0 and 1; the blink ends, with ["blink"] at 0 and the next blink
    scheduled, exactly on the frame where the blink wave is negative. *)
Theorem auto_blink_frame f tracker r :
  cameraActive f = false → isBlinking r = true →
  ∃ blink,
    expressions (fst (animate f tracker r)) !! "blink" = Some blink
    ∧ 0 ≤ blink ∧ blink ≤ 1
    ∧ (if decide (blinkValue f < 0)
       then blink = 0 ∧ isBlinking (fst (animate f tracker r)) = false
            ∧ snd (animate f tracker r) = [ScheduleNextBlink]
       else blink = Math_min 1 (blinkValue f)
            ∧ isBlinking (fst (animate f tracker r)) = true
            ∧ snd (animate f tracker r) = []).
Proof.
  intros Hcamera Hblinking. unfold animate, handleAutoBlink, decay, setValue.
  rewrite Hcamera, Hblinking. cbn [negb].
  destruct (decide (blinkValue f < 0)) as [Hneg|Hpos];
    destruct (currentIsAiTalking f); cbn [negb expressions fst snd isBlinking];
    repeat match goal with |- context [decide (0 < ?v)] => destruct (decide (0 < v)) end;
    rewrite lipSync_other by done; rewrite ?lookup_insert_ne by done;
    rewrite lookup_insert_eq; eexists; (split; [reflexivity|]).
  all: try (repeat split; done).
  all: apply Qcnot_lt_le in Hpos.
  all: split; [by apply Math_min_glb|]; split; [apply Math_min_l|done].
Qed.

Lemma auto_blink_frame_witness :
  ∃ blink,
    expressions (fst (animate Scenarios.autoFrame Scenarios.smilingFace
                              Scenarios.blinkingAvatar)) !! "blink" = Some blink
    ∧ 0 ≤ blink ∧ blink ≤ 1
    ∧ (if decide (blinkValue Scenarios.autoFrame < 0)
       then blink = 0
            ∧ isBlinking (fst (animate Scenarios.autoFrame Scenarios.smilingFace
                                       Scenarios.blinkingAvatar)) = false
            ∧ snd (animate Scenarios.autoFrame Scenarios.smilingFace
                           Scenarios.blinkingAvatar) = [ScheduleNextBlink]
       else blink = Math_min 1 (blinkValue Scenarios.autoFrame)
            ∧ isBlinking (fst (animate Scenarios.autoFrame Scenarios.smilingFace
                                       Scenarios.blinkingAvatar)) = true
            ∧ snd (animate Scenarios.autoFrame Scenarios.smilingFace
                           Scenarios.blinkingAvatar) = []).
Proof.
  apply (auto_blink_frame Scenarios.autoFrame Scenarios.smilingFace
           Scenarios.blinkingAvatar); reflexivity.
Defined.

End AvatarDisplayBehaviour.

(** ** The application: connecting and tearing down *)

Module AppBehaviour.
Import JS liveClient liveClientFacts App.

(** X29. A connection that fails releases nothing: with no client in the
    ref, a [handleConnect] whose [connect] throws ends in status ERROR with
    the ref empty, and the only calls are the start of the metering timer,
    the error callback and its alert; the client that is dropped still
    holds its timer and both audio contexts. *)
Theorem failed_connect_releases_nothing (modelUrl : string) f o a :
  truthy modelUrl = true → o ≠ Connected → liveClientRef a = None →
  handleConnect true (Some modelUrl) f o a
  = (mkAppState ERROR false 0 0 None,
     [ClientCall (SetInterval (freshInterval f)); ClientCall OnError; Alert])
  ∧ volumeInterval (fst (connect f o new)) = Some (freshInterval f)
  ∧ inputAudioContext (fst (connect f o new)) = Some (freshInput f)
  ∧ outputAudioContext (fst (connect f o new)) = Some (freshOutput f).
Proof.
  intros Hurl Hfailed Hnone. unfold handleConnect, handleDisconnect.
  cbn [negb from_option]. rewrite Hurl, Hnone. cbn [negb].
  by destruct o.
Qed.

Lemma failed_connect_releases_nothing_witness :
  handleConnect true (Some "avatar.vrm") (mkFresh 1 2 3 4 5 6) SessionRejected initial
  = (mkAppState ERROR false 0 0 None,
     [ClientCall (SetInterval 4); ClientCall OnError; Alert])
  ∧ volumeInterval (fst (connect (mkFresh 1 2 3 4 5 6) SessionRejected new)) = Some 4%positive
  ∧ inputAudioContext (fst (connect (mkFresh 1 2 3 4 5 6) SessionRejected new))
    = Some 1%positive
  ∧ outputAudioContext (fst (connect (mkFresh 1 2 3 4 5 6) SessionRejected new))
    = Some 2%positive.
Proof.
  apply (failed_connect_releases_nothing "avatar.vrm" (mkFresh 1 2 3 4 5 6)
           SessionRejected initial); [reflexivity|discriminate|reflexivity].
Defined.

(** X30. An error reported by a client that is in the ref tears the
    session down as [handleDisconnect] does: after the alert, every
    resource the client holds is released once, the ref is cleared, and the
    status ends DISCONNECTED, not ERROR; a further [handleDisconnect] makes
    no call. *)
Theorem session_error_tears_down a client :
  liveClientRef a = Some client →
  onError a
  = (mkAppState DISCONNECTED false 0 0 None,
     Alert :: (ClientCall <$>
       release ClearInterval (volumeInterval client)
       ++ release ProcessorDisconnect (processor client)
       ++ release SourceDisconnect (source client)
       ++ release StopTracks (mediaStream client)
       ++ release CloseContext (inputAudioContext client)
       ++ release CloseContext (outputAudioContext client)))
  ∧ handleDisconnect (fst (onError a)) = (fst (onError a), []).
Proof.
  intros Hclient. unfold onError, handleDisconnect. rewrite Hclient.
  destruct client as [[?|] [?|] [?|] [?|] [?|] next promise session an [?|]];
    split; reflexivity.
Qed.

Lemma session_error_tears_down_witness :
  let a := mkAppState CONNECTED true 0 0 (Some Scenarios.connected) in
  onError a
  = (mkAppState DISCONNECTED false 0 0 None,
     Alert :: (ClientCall <$>
       release ClearInterval (volumeInterval Scenarios.connected)
       ++ release ProcessorDisconnect (processor Scenarios.connected)
       ++ release SourceDisconnect (source Scenarios.connected)
       ++ release StopTracks (mediaStream Scenarios.connected)
       ++ release CloseContext (inputAudioContext Scenarios.connected)
       ++ release CloseContext (outputAudioContext Scenarios.connected)))
  ∧ handleDisconnect (fst (onError a)) = (fst (onError a), []).
Proof.
  apply (session_error_tears_down
           (mkAppState CONNECTED true 0 0 (Some Scenarios.connected))
           Scenarios.connected).
  reflexivity.
Defined.

End AppBehaviour.
